(** * zfs: a shallow embedding of the zfs command wrapper (zfs.go)

    The Go package drives the external [zfs] binary through a
    [runcmd.Runner].  Every method builds one command line, asks the
    runner to validate and execute it, and interprets the text that comes
    back.  The embedding keeps that shape: the runner is an interface
    (a type class), every method is a computation in a small monad that
    threads the history of runner calls, and the text helpers of Go's
    [strings] package are plain functions on [string]. *)

From Stdlib Require Import String Ascii List Bool Arith NArith Lia.
From Stdlib Require Import Strings.Byte.
From Equations Require Import Equations.
Import ListNotations.
Local Open Scope string_scope.
Local Open Scope list_scope.

(** ** Text helpers (Go's [strings] package, on byte strings) *)

Module strings.

(** [strings.HasSuffix]: [len(s) >= len(suffix) && s[len(s)-len(suffix):] == suffix]. *)
Definition HasSuffix (s suffix : string) : bool :=
  Nat.leb (String.length suffix) (String.length s)
  && String.eqb
       (substring (String.length s - String.length suffix) (String.length suffix) s)
       suffix.

(** [strings.Contains]: [substr] occurs at some offset of [s]. *)
Fixpoint Contains (s substr : string) : bool :=
  prefix substr s
  || match s with
     | EmptyString => false
     | String _ s' => Contains s' substr
     end.

(** membership of a byte in a cutset *)
Fixpoint inCutset (c : ascii) (cutset : string) : bool :=
  match cutset with
  | EmptyString => false
  | String d rest => Ascii.eqb c d || inCutset c rest
  end.

(** [strings.TrimRight]: drop every trailing byte that belongs to [cutset]. *)
Fixpoint TrimRight (s cutset : string) : string :=
  match s with
  | EmptyString => EmptyString
  | String c s' =>
      match TrimRight s' cutset with
      | EmptyString => if inCutset c cutset then EmptyString else String c EmptyString
      | t => String c t
      end
  end.

(** [strings.Split(s, sep)] for a one-byte separator, the only use the
    package makes of it ([sep = "\n"]): the pieces between separators, so
    [n] separators give [n + 1] pieces and the empty text gives one empty
    piece. *)
Fixpoint SplitByte (sep : ascii) (s : string) : list string :=
  match s with
  | EmptyString => [EmptyString]
  | String c s' =>
      if Ascii.eqb c sep then EmptyString :: SplitByte sep s'
      else match SplitByte sep s' with
           | [] => [String c EmptyString]
           | piece :: pieces => String c piece :: pieces
           end
  end.

Definition newline : ascii := ascii_of_nat 10.

(** [strings.Split(s, "\n")] *)
Definition Split (s : string) : list string := SplitByte newline s.

End strings.

(** ** The runner interface (package runcmd) *)

(** Go's [error] values are observed through [err.Error()] only; an error
    is its text. *)
Definition error := string.

(** A [runcmd.CmdWorker] as built by [Runner.Command(name, args...)]. *)
Record CmdWorker := Command { cmdName : string; cmdArgs : list string }.

(** What a producer puts on its standard output: the successive chunks a
    [Read] can see, closed by end-of-stream ([None]) or by a read error. *)
Record Reader := mkReader { chunks : list (list byte); readErr : option error }.

(** What a consumer takes on its standard input: everything ([None]) or
    [n] more bytes after which a [Write] fails with the given error. *)
Definition Writer := option (nat * error).

(** One call to the runner together with the answer it gave. *)
Inductive event :=
| EvCmdError (c : CmdWorker) (r : option error)
| EvRun (c : CmdWorker) (stdout : string) (r : option error)
| EvStart (c : CmdWorker) (r : option error)
| EvStdoutPipe (c : CmdWorker) (r : option error)
| EvStdinPipe (c : CmdWorker) (r : option error)
| EvCopy (writes : list (list byte)) (written : nat) (r : option error).

Definition trace := list event.

(** The environment: how the external tool answers each call, given all
    that happened before.  [run] stands for [SetStdout(&buf); Run()] and
    yields the captured standard output next to the error. *)
Class Runner := {
  cmdError : trace -> CmdWorker -> option error;
  run : trace -> CmdWorker -> string * option error;
  start : trace -> CmdWorker -> option error;
  stdoutPipe : trace -> CmdWorker -> Reader + error;
  stdinPipe : trace -> CmdWorker -> Writer + error
}.

(** ** The monad of runner calls *)

Definition M (A : Type) : Type := trace -> A * trace.

Definition ret {A} (a : A) : M A := fun tr => (a, tr).

Definition bind {A B} (m : M A) (k : A -> M B) : M B :=
  fun tr => let (a, tr') := m tr in k a tr'.

Declare Scope zfs_scope.
Delimit Scope zfs_scope with zfs.
Notation "x <- m ;; k" := (bind m (fun x => k))
  (at level 100, m at next level, right associativity) : zfs_scope.
Notation "' p <- m ;; k" := (bind m (fun x => match x with p => k end))
  (at level 100, p pattern, m at next level, right associativity) : zfs_scope.
Local Open Scope zfs_scope.

(** result and events of a computation started after history [tr] *)
Definition result {A} (m : M A) (tr : trace) : A := fst (m tr).
Definition history {A} (m : M A) (tr : trace) : trace := snd (m tr).

Definition isOk {A} (r : A + error) : option error :=
  match r with inl _ => None | inr e => Some e end.

Section Calls.
Context {R : Runner}.

Definition CmdError (c : CmdWorker) : M (option error) :=
  fun tr => let r := cmdError tr c in (r, tr ++ [EvCmdError c r]).

Definition Run (c : CmdWorker) : M (string * option error) :=
  fun tr => let r := run tr c in (r, tr ++ [EvRun c (fst r) (snd r)]).

Definition Start (c : CmdWorker) : M (option error) :=
  fun tr => let r := start tr c in (r, tr ++ [EvStart c r]).

Definition StdoutPipe (c : CmdWorker) : M (Reader + error) :=
  fun tr => let r := stdoutPipe tr c in (r, tr ++ [EvStdoutPipe c (isOk r)]).

Definition StdinPipe (c : CmdWorker) : M (Writer + error) :=
  fun tr => let r := stdinPipe tr c in (r, tr ++ [EvStdinPipe c (isOk r)]).

End Calls.

(** ** Package zfs *)

Definition FS := "filesystem".
Definition SNAP := "snapshot".
Definition DATANOE := "dataset does not exist".

(** [out[:length-1]] when the last of more than one line is empty *)
Definition dropTrailingEmpty (out : list string) : list string :=
  let length := List.length out in
  if Nat.ltb 1 length then
    if String.eqb (nth (length - 1) out "") "" then firstn (length - 1) out else out
  else out.

(** the argument vector of a plain listing *)
Definition listArgs (fs fsType : string) (recursive : bool) : list string :=
  let args := ["list"; "-Ho"; "name"; "-t"; fsType; fs] in
  let args := if recursive then ["list"; "-Ho"; "name"; "-t"; fsType; "-r"; fs] else args in
  let length := List.length args in
  if String.eqb fs "" then firstn (length - 1) args else args.

(** 0 for a plain target, 1 for a mask: the depth of the calls [List]
    makes to itself *)
Definition maskDepth (fs : string) : nat :=
  if strings.HasSuffix fs "*" then 1 else 0.

(** a value together with the equation that produced it, so that the
    branch taken stays known inside the branch *)
Definition inspect {A} (a : A) : {b : A | a = b} := exist _ a eq_refl.

Section Zfs.
Context {R : Runner}.

(** [func (this *Zfs) List(fs, fsType string, recursive bool) ([]string, error)] *)
Equations? List (fs fsType : string) (recursive : bool) (tr : trace)
  : (list string * option error) * trace by wf (maskDepth fs) lt :=
List fs fsType recursive tr with inspect (strings.HasSuffix fs "*") := {
  | exist _ true _ =>
      let '((out, err), tr1) := List "" FS false tr in
      match err with
      | Some e => (([], Some e), tr1)
      | None =>
          ((filter (fun next => strings.Contains next (strings.TrimRight fs "*")) out, None), tr1)
      end
  | exist _ false _ =>
      (let c := Command "zfs" (listArgs fs fsType recursive) in
       err <- CmdError c ;;
       match err with
       | Some e => ret ([], Some e)
       | None =>
           '(stdout, err) <- Run c ;;
           match err with
           | Some e => ret ([], Some e)
           | None => ret (dropTrailingEmpty (strings.Split stdout), None)
           end
       end) tr }.
Proof.
  unfold maskDepth. rewrite e. cbn. lia.
Qed.

(** [func (this *Zfs) ExistFs(fs string) (bool, error)] *)
Definition ExistFs (fs : string) : M (bool * option error) :=
  '(_, err) <- List fs FS false ;;
  match err with
  | Some e => if strings.Contains e DATANOE then ret (false, None) else ret (false, Some e)
  | None => ret (true, None)
  end.

(** [func (this *Zfs) ExistSnap(fs, snap string) (bool, error)] *)
Definition ExistSnap (fs snap : string) : M (bool * option error) :=
  '(_, err) <- List (fs ++ "@" ++ snap)%string SNAP false ;;
  match err with
  | Some e => if strings.Contains e DATANOE then ret (false, None) else ret (false, Some e)
  | None => ret (true, None)
  end.

(** [func (this *Zfs) Property(fs, property string) (string, error)] *)
Definition Property (fs property : string) : M (string * option error) :=
  let c := Command "zfs" ["get"; "-Ho"; "value"; property; fs] in
  err <- CmdError c ;;
  match err with
  | Some e => ret ("", Some e)
  | None =>
      '(stdout, err) <- Run c ;;
      match err with
      | Some e => ret ("", Some e)
      | None => ret (stdout, None)
      end
  end.

(** [func (this *Zfs) SetProperty(fs, property, value string) error] *)
Definition SetProperty (fs property value : string) : M (option error) :=
  let c := Command "zfs" ["set"; (property ++ "=" ++ value)%string; fs] in
  err <- CmdError c ;;
  match err with
  | Some e => ret (Some e)
  | None =>
      '(_, err) <- Run c ;;
      match err with
      | Some e => ret (Some e)
      | None =>
          '(out, err) <- Property fs property ;;
          match err with
          | Some e => ret (Some e)
          | None =>
              if negb (String.eqb out value)
              then ret (Some ("cannot set property: " ++ property)%string)
              else ret None
          end
      end
  end.

(** the [for _, snap := range out] loop of [RecentSnap] *)
Fixpoint recentLoop (out : list string) (property : string) : M (string * option error) :=
  match out with
  | [] => ret ("", None)
  | snap :: rest =>
      if negb (String.eqb property "") then
        '(value, err) <- Property snap property ;;
        match err with
        | Some _ => ret ("", None)
        | None =>
            if String.eqb value "true" then ret (snap, None)
            else recentLoop rest property
        end
      else ret (snap, None)
  end.

(** [func (this *Zfs) RecentSnap(snap, property string) (string, error)] *)
Definition RecentSnap (snap property : string) : M (string * option error) :=
  let c := Command "zfs"
             ["list"; "-Hro"; "name"; "-t"; "snapshot"; "-S"; "creation"; snap] in
  err <- CmdError c ;;
  match err with
  | Some e => ret ("", Some e)
  | None =>
      '(stdout, err) <- Run c ;;
      match err with
      | Some e => ret ("", Some e)
      | None => recentLoop (strings.Split stdout) property
      end
  end.

(** [func (this *Zfs) RecvSnap(fs, snap string) (runcmd.CmdWorker, error)];
    a nil worker is [None]. *)
Definition RecvSnap (fs snap : string) : M (option CmdWorker * option error) :=
  let c := Command "zfs" ["recv"; (fs ++ "@" ++ snap)%string] in
  err <- CmdError c ;;
  match err with
  | Some e => ret (None, Some e)
  | None =>
      _ <- Start c ;;
      ret (Some c, None)
  end.

End Zfs.

(** ** The streaming copy *)

Module io.

(** the size of the buffer a copy moves bytes through *)
Definition bufSize : nat := 32 * 1024.

Definition ErrShortWrite : error := "short write".

(** how a [Read] ended: more may come, end of stream, or a failure *)
Inductive readStatus := ReadMore | ReadEOF | ReadErr (e : error).

(** [src.Read(buf)] with [len(buf) = size]: at most [size] bytes of the
    chunk at hand; what is left of the chunk stays for the next call. *)
Definition Read (size : nat) (src : Reader) : (list byte * readStatus) * Reader :=
  match chunks src with
  | [] => (([], match readErr src with None => ReadEOF | Some e => ReadErr e end), src)
  | c :: rest =>
      let rest' := match skipn size c with [] => rest | more => more :: rest end in
      ((firstn size c, ReadMore), mkReader rest' (readErr src))
  end.

(** [dst.Write(p)]: the bytes the consumer took, and the error if it
    stopped taking them. *)
Definition Write (dst : Writer) (p : list byte) : (list byte * option error) * Writer :=
  match dst with
  | None => ((p, None), None)
  | Some (room, e) =>
      if Nat.leb (List.length p) room
      then ((p, None), Some (room - List.length p, e))
      else ((firstn room p, Some e), Some (0, e))
  end.

(** a bound on the number of reads left in a producer's output *)
Definition weight (src : Reader) : nat :=
  fold_right (fun c n => S (List.length c + n)) 0 (chunks src).

(** Modelled from the spec: [io.Copy], the streaming copy of Go's standard
    library, whose code is not part of this package.  "Stream bytes
    directly from the producer's output into the consumer's input until
    end-of-stream, with no intermediate buffering of the whole payload":
    a loop that reads at most [bufSize] bytes into one buffer, writes
    them out, and stops at end-of-stream or at the first error.  It
    returns the number of bytes written, the first error, and (for the
    proofs) the successive buffer loads the consumer received. *)
Equations? copyBuffer (dst : Writer) (src : Reader) (written : nat)
  (writes : list (list byte)) : (nat * option error) * list (list byte)
  by wf (weight src) lt :=
copyBuffer dst src written writes with inspect (Read bufSize src) := {
  | exist _ (([], ReadMore), src') _ => copyBuffer dst src' written writes
  | exist _ (([], ReadEOF), _) _ => ((written, None), writes)
  | exist _ (([], ReadErr e), _) _ => ((written, Some e), writes)
  | exist _ ((b :: buf, er), src') _ with Write dst (b :: buf) := {
      | ((taken, Some ew), _) =>
          ((written + List.length taken, Some ew), writes ++ [taken])
      | ((taken, None), dst') with Nat.eqb (List.length (b :: buf)) (List.length taken) := {
          | false => ((written + List.length taken, Some ErrShortWrite), writes ++ [taken])
          | true with er := {
              | ReadMore =>
                  copyBuffer dst' src' (written + List.length taken) (writes ++ [taken])
              | ReadEOF => ((written + List.length taken, None), writes ++ [taken])
              | ReadErr e => ((written + List.length taken, Some e), writes ++ [taken]) } } } }.
Proof.
  all: assert (Hsize : 0 < bufSize)
         by (unfold bufSize; apply Nat.mul_pos_pos; apply Nat.lt_0_succ).
  all: match goal with Hr : Read _ _ = _ |- _ => revert Hr Hsize end.
  all: generalize bufSize as size; intros size.
  all: unfold Read, weight; destruct src as [cs fin]; cbn [chunks readErr].
  all: destruct cs as [|c rest]; [destruct fin; discriminate|].
  all: intros Hr Hsize; injection Hr as _ <-; cbn [chunks fold_right].
  all: destruct size as [|size]; [lia|].
  all: destruct c as [|b0 c]; cbn [skipn length]; [lia|].
  all: pose proof (length_skipn size c) as Hlen.
  all: destruct (skipn size c); cbn [fold_right length] in *; lia.
Qed.

(** [io.Copy(dst, src)] as a step of the history *)
Definition Copy (dst : Writer) (src : Reader) : M (nat * option error) :=
  fun tr =>
    let '((written, err), writes) := copyBuffer dst src 0 [] in
    ((written, err), tr ++ [EvCopy writes written err]).

End io.

Section Replication.
Context {R : Runner}.

(** the argument vector of the producer *)
Definition sendArgs (fs snapOld snapNew : string) : list string :=
  let args := ["send"; "-i"; (fs ++ "@" ++ snapOld)%string; (fs ++ "@" ++ snapNew)%string] in
  if String.eqb snapNew "" then ["send"; (fs ++ "@" ++ snapOld)%string] else args.

(** [func (this *Zfs) SendSnap(fs, snapOld, snapNew string, cw runcmd.CmdWorker)
    (runcmd.CmdWorker, error)] *)
Definition SendSnap (fs snapOld snapNew : string) (cw : CmdWorker)
  : M (option CmdWorker * option error) :=
  let sendWorker := Command "zfs" (sendArgs fs snapOld snapNew) in
  err <- CmdError sendWorker ;;
  match err with
  | Some e => ret (None, Some e)
  | None =>
      sendWorkerStdout <- StdoutPipe sendWorker ;;
      match sendWorkerStdout with
      | inr e => ret (None, Some e)
      | inl sendWorkerStdout =>
          cwStdin <- StdinPipe cw ;;
          match cwStdin with
          | inr e => ret (None, Some e)
          | inl cwStdin =>
              err <- Start sendWorker ;;
              match err with
              | Some e => ret (None, Some e)
              | None =>
                  '(_, err) <- io.Copy cwStdin sendWorkerStdout ;;
                  ret (Some sendWorker, err)
              end
          end
      end
  end.

End Replication.

(** ** The one-command operations and the snapshot listing *)

Section Commands.
Context {R : Runner}.

(** [func (this *Zfs) CreateSnap(fs, snap string) error] *)
Definition CreateSnap (fs snap : string) : M (option error) :=
  let c := Command "zfs" ["snapshot"; (fs ++ "@" ++ snap)%string] in
  err <- CmdError c ;;
  match err with
  | Some e => ret (Some e)
  | None => '(_, err) <- Run c ;; ret err
  end.

(** [func (this *Zfs) CreateFs(fs string) error] *)
Definition CreateFs (fs : string) : M (option error) :=
  let c := Command "zfs" ["create"; fs] in
  err <- CmdError c ;;
  match err with
  | Some e => ret (Some e)
  | None => '(_, err) <- Run c ;; ret err
  end.

(** [func (this *Zfs) Destroy(fs string) error] *)
Definition Destroy (fs : string) : M (option error) :=
  let c := Command "zfs" ["destroy"; fs] in
  err <- CmdError c ;;
  match err with
  | Some e => ret (Some e)
  | None => '(_, err) <- Run c ;; ret err
  end.

(** [func (this *Zfs) RenameSnap(fs, snapOld, snapNew string) error] *)
Definition RenameSnap (fs snapOld snapNew : string) : M (option error) :=
  let c := Command "zfs"
             ["rename"; (fs ++ "@" ++ snapOld)%string; (fs ++ "@" ++ snapNew)%string] in
  err <- CmdError c ;;
  match err with
  | Some e => ret (Some e)
  | None => '(_, err) <- Run c ;; ret err
  end.

(** [func (this *Zfs) ListFsSnap(fs string) ([]string, error)] *)
Definition ListFsSnap (fs : string) : M (list string * option error) :=
  let c := Command "zfs" ["list"; "-Ho"; "name"; "-d1"; "-t"; "snapshot"; fs] in
  err <- CmdError c ;;
  match err with
  | Some e => ret ([], Some e)
  | None =>
      '(stdout, err) <- Run c ;;
      match err with
      | Some e => ret ([], Some e)
      | None => ret (dropTrailingEmpty (strings.Split stdout), None)
      end
  end.

End Commands.

(** ** Shapes of text *)

(** the lines of a listing, each closed by a line terminator *)
Definition unlines (lines : list string) : string :=
  fold_right (fun line rest => (line ++ String strings.newline rest)%string) "" lines.

(** the lines of a listing with terminators between them only *)
Fixpoint joinLines (lines : list string) : string :=
  match lines with
  | [] => ""
  | [line] => line
  | line :: rest => (line ++ String strings.newline (joinLines rest))%string
  end.

(** a text without line terminator *)
Definition oneLine (s : string) : Prop := strings.inCutset strings.newline s = false.

(** the last byte of a text *)
Fixpoint lastByte (s : string) : option ascii :=
  match s with
  | EmptyString => None
  | String c EmptyString => Some c
  | String _ rest => lastByte rest
  end.

(** a text made of bytes of [cutset] only *)
Fixpoint within (cutset s : string) : bool :=
  match s with
  | EmptyString => true
  | String c rest => strings.inCutset c cutset && within cutset rest
  end.

(** [sub] occurs in [s] *)
Definition occursIn (sub s : string) : Prop :=
  exists before after, s = (before ++ sub ++ after)%string.

(** [m] validates [c] and, only when that succeeds, runs it once; the
    error it returns is the one of the step that ended it *)
Definition oneCommand `{Runner} (m : M (option error)) (c : CmdWorker) (tr : trace) : Prop :=
  let tr1 := tr ++ [EvCmdError c None] in
  (forall e, cmdError tr c = Some e -> m tr = (Some e, tr ++ [EvCmdError c (Some e)]))
  /\ (forall stdout err, cmdError tr c = None -> run tr1 c = (stdout, err) ->
        m tr = (err, tr1 ++ [EvRun c stdout err])).

(** the call an event records, without its answer *)
Inductive callKind := KCmdError | KRun | KStart | KStdoutPipe | KStdinPipe | KCopy.

Definition eventKind (ev : event) : callKind :=
  match ev with
  | EvCmdError _ _ => KCmdError
  | EvRun _ _ _ => KRun
  | EvStart _ _ => KStart
  | EvStdoutPipe _ _ => KStdoutPipe
  | EvStdinPipe _ _ => KStdinPipe
  | EvCopy _ _ _ => KCopy
  end.



(** ** Test doubles and reference definitions *)

(** equality of argument vectors *)
Fixpoint sameArgs (a b : list string) : bool :=
  match a, b with
  | [], [] => true
  | x :: a', y :: b' => String.eqb x y && sameArgs a' b'
  | _, _ => false
  end.

(** the scripted answer to an argument vector; an unknown one fails the
    way the tool does on a missing dataset *)
Fixpoint answer (table : list (list string * (string * option error)))
  (args : list string) : string * option error :=
  match table with
  | [] => ("", Some ("cannot open: " ++ DATANOE)%string)
  | (key, r) :: rest => if sameArgs key args then r else answer rest args
  end.

(** A runner that validates every command, runs it by looking its
    arguments up in [table], and answers the process calls with fixed
    values. *)
Definition scripted (table : list (list string * (string * option error)))
  (startErr : option error) (out : Reader + error) (inp : Writer + error) : Runner :=
  {| cmdError := fun _ _ => None;
     run := fun _ c => answer table (cmdArgs c);
     start := fun _ _ => startErr;
     stdoutPipe := fun _ _ => out;
     stdinPipe := fun _ _ => inp |}.

(** a line terminator *)
Definition nl : string := String strings.newline EmptyString.

(** a pool with three filesystems under [tank], one under [pool], and two
    snapshots of [tank], the newer one unreadable for [backup] *)
Definition poolTable : list (list string * (string * option error)) :=
  [ (["list"; "-Ho"; "name"; "-t"; "filesystem"],
     ("tank" ++ nl ++ "tank/a" ++ nl ++ "tank/ab" ++ nl ++ "pool/x" ++ nl, None)%string);
    (["list"; "-Ho"; "name"; "-t"; "filesystem"; "tank/a"],
     ("tank/a" ++ nl, None)%string);
    (["list"; "-Ho"; "name"; "-t"; "filesystem"; "tank/locked"],
     ("", Some "cannot open 'tank/locked': permission denied"));
    (["list"; "-Ho"; "name"; "-t"; "snapshot"; "tank@old"],
     ("tank@old" ++ nl, None)%string);
    (["list"; "-Hro"; "name"; "-t"; "snapshot"; "-S"; "creation"; "tank"],
     ("tank@new" ++ nl ++ "tank@old", None)%string);
    (["get"; "-Ho"; "value"; "backup"; "tank@new"], ("", Some "exit status 1"));
    (["get"; "-Ho"; "value"; "backup"; "tank@old"], ("true", None));
    (["get"; "-Ho"; "value"; "keep"; "tank@new"], ("false", None));
    (["get"; "-Ho"; "value"; "keep"; "tank@old"], ("true", None));
    (["get"; "-Ho"; "value"; "compression"; "tank"], ("on" ++ nl, None)%string);
    (["set"; "compression=on"; "tank"], ("", None));
    (["set"; "readonly=on"; "tank"], ("", None));
    (["get"; "-Ho"; "value"; "readonly"; "tank"], ("off", None));
    (["set"; "quota=1G"; "tank"], ("", None));
    (["get"; "-Ho"; "value"; "quota"; "tank"], ("1G", None)) ].

(** three bytes of payload in two chunks with an empty read in between *)
Definition payload : Reader := mkReader [[x01; x02]; []; [x03]] None.

(** seventy thousand bytes in one chunk: more than two buffers *)
Definition bulk : Reader := mkReader [List.repeat x00 (N.to_nat 70000)] None.

Definition poolRunner : Runner := scripted poolTable None (inl payload) (inl None).

(** the same pool when no process can be started *)
Definition stuckRunner : Runner :=
  scripted poolTable (Some "fork: resource unavailable") (inl payload) (inl None).

(** the same pool when the consumer closes its input after two bytes *)
Definition brokenPipeRunner : Runner :=
  scripted poolTable None (inl payload) (inl (Some (2, "write |1: broken pipe"))).

(** the same pool when the producer's output cannot be piped *)
Definition noPipeRunner : Runner :=
  scripted poolTable None (inr "StdoutPipe: stdout already set") (inl None).

(** the sample pool with one more dataset, whose snapshots are listed
    with every line terminated and none of them kept *)
Definition terminatedRunner : Runner :=
  scripted
    ((["list"; "-Hro"; "name"; "-t"; "snapshot"; "-S"; "creation"; "tank/a"],
      ("tank/a@s2" ++ nl ++ "tank/a@s1" ++ nl, None)%string)
     :: (["get"; "-Ho"; "value"; "keep"; "tank/a@s2"], ("false", None))
     :: (["get"; "-Ho"; "value"; "keep"; "tank/a@s1"], ("-", None))
     :: poolTable)
    None (inl payload) (inl None).

Module Spec.

(** Go's ASCII white space *)
Definition whitespace : string :=
  String (ascii_of_nat 9) (String (ascii_of_nat 10) (String (ascii_of_nat 11)
    (String (ascii_of_nat 12) (String (ascii_of_nat 13) " ")))).

(** drop every leading byte that belongs to [cutset] *)
Fixpoint TrimLeft (s cutset : string) : string :=
  match s with
  | EmptyString => EmptyString
  | String c s' => if strings.inCutset c cutset then TrimLeft s' cutset else s
  end.

(** a "trimmed value": the text without leading and trailing white space *)
Definition TrimSpace (s : string) : string :=
  TrimLeft (strings.TrimRight s whitespace) whitespace.

(** The scan of [mostRecentSnapshot] as the specification words it: a
    candidate whose read fails is passed over and the walk goes on.
    [reads] gives the outcome of the property read of each candidate. *)
Fixpoint lenientScan (reads : string -> string * option error) (out : list string)
  : string * option error :=
  match out with
  | [] => ("", None)
  | snap :: rest =>
      match reads snap with
      | (value, None) => if String.eqb value "true" then (snap, None)
                         else lenientScan reads rest
      | (_, Some _) => lenientScan reads rest
      end
  end.

End Spec.

(** the command a call was made on *)
Definition eventCmd (ev : event) : option CmdWorker :=
  match ev with
  | EvCmdError c _ | EvRun c _ _ | EvStart c _ | EvStdoutPipe c _ | EvStdinPipe c _ => Some c
  | EvCopy _ _ _ => None
  end.

(** the history after reading [property] of each of [pre] in turn *)
Definition afterReads `{Runner} (property : string) (pre : list string) (tr : trace) : trace :=
  fold_left (fun t p => history (Property p property) t) pre tr.

(** all the bytes a producer will emit *)
Definition bytesOf (src : Reader) : list byte := concat (chunks src).

(** what a copy delivers: everything and the producer's own ending when
    the consumer has room for it, and otherwise the bytes the consumer
    had room for and the consumer's error *)
Definition delivered (dst : Writer) (src : Reader) : list byte * option error :=
  match dst with
  | None => (bytesOf src, readErr src)
  | Some (room, e) =>
      if Nat.leb (length (bytesOf src)) room then (bytesOf src, readErr src)
      else (firstn room (bytesOf src), Some e)
  end.

(** every candidate of [pre], read in turn from history [tr] on, reads
    without error as something other than "true" *)
Definition unmarked `{Runner} (property : string) (tr : trace) (pre : list string) : Prop :=
  forall pre1 p pre2, pre = pre1 ++ p :: pre2 ->
    exists value,
      result (Property p property) (afterReads property pre1 tr) = (value, None)
      /\ value <> "true".

(** [ev] is the failure, with error [e], of one of the steps [SendSnap]
    takes before it copies: validation of the producer [sw], either pipe,
    or the start of the producer *)
Definition failedStep (sw cw : CmdWorker) (e : error) (ev : event) : Prop :=
  ev = EvCmdError sw (Some e) \/ ev = EvStdoutPipe sw (Some e)
  \/ ev = EvStdinPipe cw (Some e) \/ ev = EvStart sw (Some e).

(** the consumer takes at least [n] more bytes *)
Definition hasRoom (dst : Writer) (n : nat) : Prop :=
  match dst with
  | None => True
  | Some (room, _) => n <= room
  end.

(** [evs = before ++ EvStart c r :: after] for an explicit [evs]: find the
    position of the start call and read off what came before it *)
Ltac walk before H :=
  repeat (destruct before as [|? before]; cbn [app] in H;
          [ try discriminate H;
            try (injection H as; subst; cbn [In]; auto 10)
          | first [ discriminate H | injection H as ? H ] ]).

(** which of the failing steps an event of the history can be *)
Ltac step_error Hev :=
  unfold failedStep in Hev;
  repeat match type of Hev with
         | _ \/ _ => destruct Hev as [Hev|Hev]
         end;
  try discriminate Hev; try (injection Hev as; subst).

(** no successful start among explicit events *)
Ltac no_start :=
  cbn [In]; intros Hstart;
  repeat match type of Hstart with
         | _ \/ _ => destruct Hstart as [Hstart|Hstart]
         | False => contradiction
         end;
  try discriminate Hstart; try contradiction.





(** ** Listing *)

Section ListingFacts.
Context {R : Runner}.

(** the plain listing, as one validated and executed command *)
Lemma List_plain (fs fsType : string) (recursive : bool) (tr : trace) :
  strings.HasSuffix fs "*" = false ->
  List fs fsType recursive tr =
  (let c := Command "zfs" (listArgs fs fsType recursive) in
   err <- CmdError c ;;
   match err with
   | Some e => ret ([], Some e)
   | None =>
       '(stdout, err) <- Run c ;;
       match err with
       | Some e => ret ([], Some e)
       | None => ret (dropTrailingEmpty (strings.Split stdout), None)
       end
   end) tr.
Proof.
  intros Hplain. funelim (List fs fsType recursive tr).
  - congruence.
  - reflexivity.
Qed.

(** the mask listing, as a filter over the listing of all filesystems *)
Lemma List_masked (fs fsType : string) (recursive : bool) (tr : trace) :
  strings.HasSuffix fs "*" = true ->
  List fs fsType recursive tr =
  let '((out, err), tr1) := List "" FS false tr in
  match err with
  | Some e => (([], Some e), tr1)
  | None =>
      ((filter (fun next => strings.Contains next (strings.TrimRight fs "*")) out, None), tr1)
  end.
Proof.
  intros Hmask. funelim (List fs fsType recursive tr).
  - reflexivity.
  - congruence.
Qed.

(** the listing of all filesystems issues [list -Ho name -t filesystem]
    and nothing else *)
Lemma List_all_history (tr : trace) :
  let c := Command "zfs" ["list"; "-Ho"; "name"; "-t"; "filesystem"] in
  history (List "" FS false) tr = tr ++ [EvCmdError c (cmdError tr c)]
  \/ exists stdout err,
       history (List "" FS false) tr = tr ++ [EvCmdError c None; EvRun c stdout err].
Proof.
  unfold history. rewrite List_plain by reflexivity.
  cbn. unfold bind, CmdError, Run, ret.
  destruct (cmdError tr _) as [e|] eqn:Hc; cbn.
  - left. reflexivity.
  - right.
    destruct (run _ _) as [stdout err] eqn:Hr; cbn.
    exists stdout, err. destruct err; cbn; rewrite <- app_assoc; reflexivity.
Qed.

End ListingFacts.

Section ListingClaims.
Context {R : Runner}.

Lemma listArgs_flat (fs fsType : string) :
  listArgs fs fsType false =
  ["list"; "-Ho"; "name"; "-t"; fsType] ++ (if String.eqb fs "" then [] else [fs]).
Proof.
  unfold listArgs. destruct (String.eqb fs ""); reflexivity.
Qed.

(** what both existence checks do with the outcome of their listing *)
Lemma exist_of_listing (m : M (list string * option error)) (tr : trace) :
  let check :=
    ('(_, err) <- m ;;
     match err with
     | Some e => if strings.Contains e DATANOE then ret (false, None) else ret (false, Some e)
     | None => ret (true, None)
     end) in
  history check tr = history m tr
  /\ (forall out e, result m tr = (out, Some e) -> strings.Contains e DATANOE = true ->
        result check tr = (false, None))
  /\ (forall out e, result m tr = (out, Some e) -> strings.Contains e DATANOE = false ->
        result check tr = (false, Some e))
  /\ (forall out, result m tr = (out, None) -> result check tr = (true, None)).
Proof.
  cbv zeta. unfold history, result, bind, ret.
  destruct (m tr) as [[out err] tr']; cbn.
  repeat split.
  - destruct err as [e|]; [destruct (strings.Contains e DATANOE)|]; reflexivity.
  - intros out' e Heq Hc. injection Heq as _ ->. rewrite Hc. reflexivity.
  - intros out' e Heq Hc. injection Heq as _ ->. rewrite Hc. reflexivity.
  - intros out' Heq. injection Heq as _ ->. reflexivity.
Qed.

(** C3: [ExistFs fs] performs the listing [List fs FS false] and
    [ExistSnap fs snap] the listing [List (fs@snap) SNAP false], both
    non-recursive, and nothing else.  When that listing fails with an
    error whose text contains "dataset does not exist" the check answers
    [false] with a nil error; when it fails with any other text it
    answers with that same error; when it succeeds it answers [true]. *)
Theorem Exist_classifies_listing (fs snap : string) (tr : trace) :
  (history (ExistFs fs) tr = history (List fs FS false) tr
   /\ (forall out e, result (List fs FS false) tr = (out, Some e) ->
         strings.Contains e DATANOE = true -> result (ExistFs fs) tr = (false, None))
   /\ (forall out e, result (List fs FS false) tr = (out, Some e) ->
         strings.Contains e DATANOE = false -> result (ExistFs fs) tr = (false, Some e))
   /\ (forall out, result (List fs FS false) tr = (out, None) ->
         result (ExistFs fs) tr = (true, None)))
  /\ (history (ExistSnap fs snap) tr = history (List (fs ++ "@" ++ snap)%string SNAP false) tr
      /\ (forall out e, result (List (fs ++ "@" ++ snap)%string SNAP false) tr = (out, Some e) ->
            strings.Contains e DATANOE = true -> result (ExistSnap fs snap) tr = (false, None))
      /\ (forall out e, result (List (fs ++ "@" ++ snap)%string SNAP false) tr = (out, Some e) ->
            strings.Contains e DATANOE = false ->
            result (ExistSnap fs snap) tr = (false, Some e))
      /\ (forall out, result (List (fs ++ "@" ++ snap)%string SNAP false) tr = (out, None) ->
            result (ExistSnap fs snap) tr = (true, None)))
  /\ (forall target fsType,
        listArgs target fsType false =
        ["list"; "-Ho"; "name"; "-t"; fsType] ++ (if String.eqb target "" then [] else [target])).
Proof.
  split; [|split].
  - exact (exist_of_listing (List fs FS false) tr).
  - exact (exist_of_listing (List (fs ++ "@" ++ snap)%string SNAP false) tr).
  - exact listArgs_flat.
Qed.

(** C4: for a pattern that ends in [*], whatever kind and recursion flag
    are passed, [List] makes exactly the calls of the listing of all
    filesystems ([List "" FS false], the command
    [zfs list -Ho name -t filesystem] and no other), hands its error on,
    and otherwise returns, in order, exactly those of its entries that
    contain the pattern without its trailing [*]. *)
Theorem List_mask_filters_filesystems (fs fsType : string) (recursive : bool) (tr : trace) :
  strings.HasSuffix fs "*" = true ->
  history (List fs fsType recursive) tr = history (List "" FS false) tr
  /\ (forall out, result (List "" FS false) tr = (out, None) ->
        result (List fs fsType recursive) tr =
        (filter (fun next => strings.Contains next (strings.TrimRight fs "*")) out, None))
  /\ (forall out e, result (List "" FS false) tr = (out, Some e) ->
        result (List fs fsType recursive) tr = ([], Some e))
  /\ (exists evs, history (List fs fsType recursive) tr = tr ++ evs
        /\ Forall (fun ev => eventCmd ev =
                     Some (Command "zfs" ["list"; "-Ho"; "name"; "-t"; "filesystem"])) evs).
Proof.
  intros Hmask.
  assert (Hhist : history (List fs fsType recursive) tr = history (List "" FS false) tr).
  { unfold history. rewrite (List_masked fs fsType recursive tr Hmask).
    destruct (List "" FS false tr) as [[out err] tr1]. destruct err; reflexivity. }
  split; [exact Hhist|]. split; [|split].
  - intros out Hout. unfold result in *.
    rewrite (List_masked fs fsType recursive tr Hmask).
    destruct (List "" FS false tr) as [[out' err] tr1]. cbn in Hout.
    injection Hout as -> ->. reflexivity.
  - intros out e Hout. unfold result in *.
    rewrite (List_masked fs fsType recursive tr Hmask).
    destruct (List "" FS false tr) as [[out' err] tr1]. cbn in Hout.
    injection Hout as -> ->. reflexivity.
  - rewrite Hhist.
    destruct (List_all_history tr) as [H|[stdout [err H]]]; rewrite H.
    + eexists. split; [reflexivity|]. repeat constructor.
    + eexists. split; [reflexivity|]. repeat constructor.
Qed.

End ListingClaims.

Lemma List_mask_filters_filesystems_witness :
  strings.HasSuffix "tank/a*" "*" = true
  /\ result (@List poolRunner "tank/a*" SNAP true) [] = (["tank/a"; "tank/ab"], None).
Proof.
  split; [reflexivity|].
  apply (proj1 (proj2 (@List_mask_filters_filesystems poolRunner "tank/a*" SNAP true []
                         eq_refl)) ["tank"; "tank/a"; "tank/ab"; "pool/x"]).
  reflexivity.
Defined.

(** existence checks on the sample pool: present, absent, unreadable, and
    a mask that matches nothing *)
Example ExistFs_present :
  result (@ExistFs poolRunner "tank/a") [] = (true, None).
Proof. reflexivity. Qed.

Example ExistFs_absent :
  result (@ExistFs poolRunner "tank/none") [] = (false, None).
Proof. reflexivity. Qed.

Example ExistFs_unreadable :
  result (@ExistFs poolRunner "tank/locked") []
  = (false, Some "cannot open 'tank/locked': permission denied").
Proof. reflexivity. Qed.

Example ExistFs_empty_mask :
  result (@ExistFs poolRunner "nothing*") [] = (true, None)
  /\ result (@List poolRunner "nothing*" FS false) [] = ([], None).
Proof. split; reflexivity. Qed.

Example ExistSnap_present_absent :
  result (@ExistSnap poolRunner "tank" "old") [] = (true, None)
  /\ result (@ExistSnap poolRunner "tank" "none") [] = (false, None).
Proof. split; reflexivity. Qed.

(** every trailing [*] of a mask is dropped before matching *)
Example List_double_mask :
  strings.TrimRight "tank/a**" "*" = "tank/a"
  /\ result (@List poolRunner "tank/a**" FS false) [] = (["tank/a"; "tank/ab"], None).
Proof. split; reflexivity. Qed.

(** ** Properties *)

Section PropertyClaims.
Context {R : Runner}.

(** What [Property] does: [Property fs property] validates and runs the
    single command [zfs get -Ho value property fs]; an error of either
    step is returned with an empty value and ends the call; otherwise the
    value returned is the captured standard output, byte for byte, with
    nothing trimmed from it. *)
Theorem Property_single_query_raw (fs property : string) (tr : trace) :
  let c := Command "zfs" ["get"; "-Ho"; "value"; property; fs] in
  let tr1 := tr ++ [EvCmdError c None] in
  (forall e, cmdError tr c = Some e ->
     Property fs property tr = (("", Some e), tr ++ [EvCmdError c (Some e)]))
  /\ (forall stdout e, cmdError tr c = None -> run tr1 c = (stdout, Some e) ->
        Property fs property tr = (("", Some e), tr1 ++ [EvRun c stdout (Some e)]))
  /\ (forall stdout, cmdError tr c = None -> run tr1 c = (stdout, None) ->
        Property fs property tr = ((stdout, None), tr1 ++ [EvRun c stdout None])).
Proof.
  cbv zeta. unfold Property, bind, ret, CmdError, Run.
  repeat split.
  - intros e Hc. rewrite Hc. reflexivity.
  - intros stdout e Hc Hr. rewrite Hc, Hr. reflexivity.
  - intros stdout Hc Hr. rewrite Hc, Hr. reflexivity.
Qed.

(** C5: a call of [SetProperty] that returns nil has validated and run
    [zfs set property=value fs] without error and has then read
    [property] back as exactly [value].  Once the write has reported
    success the only further calls are those of the read-back
    [Property fs property]; a read-back value different from [value]
    yields the error "cannot set property: <property>", an equal one
    yields nil, and a failed read-back yields its own error. *)
Theorem SetProperty_verifies_by_read_back (fs property value : string) (tr : trace) :
  let c := Command "zfs" ["set"; (property ++ "=" ++ value)%string; fs] in
  let tr1 := tr ++ [EvCmdError c None] in
  (result (SetProperty fs property value) tr = None ->
     cmdError tr c = None
     /\ exists stdout, run tr1 c = (stdout, None)
          /\ result (Property fs property) (tr1 ++ [EvRun c stdout None]) = (value, None))
  /\ (forall stdout, cmdError tr c = None -> run tr1 c = (stdout, None) ->
        let tr2 := tr1 ++ [EvRun c stdout None] in
        history (SetProperty fs property value) tr = history (Property fs property) tr2
        /\ (forall out, result (Property fs property) tr2 = (out, None) -> out <> value ->
              result (SetProperty fs property value) tr
              = Some ("cannot set property: " ++ property)%string)
        /\ (result (Property fs property) tr2 = (value, None) ->
              result (SetProperty fs property value) tr = None)
        /\ (forall out e, result (Property fs property) tr2 = (out, Some e) ->
              result (SetProperty fs property value) tr = Some e)).
Proof.
  cbv zeta. split.
  - unfold result, SetProperty, bind, ret, CmdError, Run.
    destruct (cmdError tr _) as [e|] eqn:Hc; cbn -[Property append]; [discriminate|].
    destruct (run _ _) as [stdout err] eqn:Hr; cbn -[Property append].
    destruct err as [e|]; cbn -[Property append]; [discriminate|].
    destruct (Property fs property _) as [[out err] tr3] eqn:Hp; cbn -[Property append].
    destruct err as [e|]; cbn -[Property append]; [discriminate|].
    destruct (String.eqb out value) eqn:Heq; cbn -[Property append]; [|discriminate].
    intros _. split; [reflexivity|]. exists stdout. split; [reflexivity|].
    apply String.eqb_eq in Heq. subst out. rewrite Hp. reflexivity.
  - intros stdout Hc Hr.
    unfold result, history, SetProperty, bind, ret, CmdError, Run.
    rewrite Hc; cbn -[Property append]. rewrite Hr; cbn -[Property append].
    destruct (Property fs property _) as [[out err] tr3] eqn:Hp; cbn -[Property append].
    repeat split.
    + destruct err; [reflexivity|]. destruct (String.eqb out value); reflexivity.
    + intros out' Hout Hne. injection Hout as -> ->.
      apply String.eqb_neq in Hne. rewrite Hne. reflexivity.
    + intros Hout. injection Hout as -> ->. rewrite String.eqb_refl. reflexivity.
    + intros out' e Hout. injection Hout as -> ->. reflexivity.
Qed.

(** C10: once [zfs recv fs@snap] validates, [RecvSnap] starts it and
    returns the worker with a nil error whatever the start call answered;
    that answer is in the history only. *)
Theorem RecvSnap_discards_start_error (fs snap : string) (tr : trace) :
  let c := Command "zfs" ["recv"; (fs ++ "@" ++ snap)%string] in
  let tr1 := tr ++ [EvCmdError c None] in
  cmdError tr c = None ->
  RecvSnap fs snap tr = ((Some c, None), tr1 ++ [EvStart c (start tr1 c)]).
Proof.
  cbv zeta. intros Hc. unfold RecvSnap, bind, ret, CmdError, Start.
  rewrite Hc. reflexivity.
Qed.

End PropertyClaims.

(** On the sample pool the value of [compression] comes back with the
    line terminator the tool printed, which trimming would remove. *)
Lemma Property_trimmed_counterexample :
  let c := Command "zfs" ["get"; "-Ho"; "value"; "compression"; "tank"] in
  let stdout := fst (@run poolRunner [EvCmdError c None] c) in
  result (@Property poolRunner "tank" "compression") [] = (stdout, None)
  /\ Spec.TrimSpace stdout = "on"
  /\ String.eqb stdout (Spec.TrimSpace stdout) = false.
Proof.
  cbv zeta. repeat split; reflexivity.
Qed.

(** the tool reports the write of [readonly=on] done and still reads [off] *)
Example SetProperty_silent_failure :
  result (@SetProperty poolRunner "tank" "readonly" "on") []
  = Some "cannot set property: readonly".
Proof. reflexivity. Qed.

Example SetProperty_applied :
  result (@SetProperty poolRunner "tank" "quota" "1G") [] = None.
Proof. reflexivity. Qed.

(** C9: where the value is not trimmed.  On the sample pool the tool
    answers [get -Ho value compression tank] with the value and a line
    terminator.  [Property] returns that text as it is, terminator
    included, where the trimmed value is [on].  The package's own users
    of the value compare it byte for byte: [SetProperty] of [on] reports
    "cannot set property" although the tool took the write and reads
    [on] back, and a listing of the same pool, parsed by [List], does
    drop the terminator of its last line. *)
Theorem Property_keeps_terminator :
  let c := Command "zfs" ["get"; "-Ho"; "value"; "compression"; "tank"] in
  @run poolRunner [EvCmdError c None] c = (("on" ++ nl)%string, None)
  /\ result (@Property poolRunner "tank" "compression") [] = (("on" ++ nl)%string, None)
  /\ Spec.TrimSpace ("on" ++ nl) = "on"
  /\ result (@SetProperty poolRunner "tank" "compression" "on") []
     = Some "cannot set property: compression"
  /\ @run poolRunner
       [EvCmdError (Command "zfs" ["list"; "-Ho"; "name"; "-t"; "filesystem"; "tank/a"]) None]
       (Command "zfs" ["list"; "-Ho"; "name"; "-t"; "filesystem"; "tank/a"])
     = (("tank/a" ++ nl)%string, None)
  /\ result (@List poolRunner "tank/a" FS false) [] = (["tank/a"], None).
Proof.
  cbv zeta. repeat split; reflexivity.
Qed.

(** the value read back keeps its line terminator and so differs from the
    value written *)
Example SetProperty_untrimmed_read_back :
  result (@SetProperty poolRunner "tank" "compression" "on") []
  = Some "cannot set property: compression".
Proof. reflexivity. Qed.

Lemma RecvSnap_discards_start_error_witness :
  let c := Command "zfs" ["recv"; "tank@old"] in
  @cmdError stuckRunner [] c = None
  /\ @RecvSnap stuckRunner "tank" "old" []
     = ((Some c, None),
        [EvCmdError c None; EvStart c (Some "fork: resource unavailable")]).
Proof.
  cbv zeta. split; [reflexivity|].
  apply (@RecvSnap_discards_start_error stuckRunner "tank" "old" []).
  reflexivity.
Defined.

(** ** The most recent snapshot *)

Section RecentClaims.
Context {R : Runner}.

Lemma recentLoop_pass (property p value : string) (rest : list string) (tr : trace) :
  property <> "" ->
  result (Property p property) tr = (value, None) -> value <> "true" ->
  recentLoop (p :: rest) property tr
  = recentLoop rest property (history (Property p property) tr).
Proof.
  intros Hkey Hread Hvalue. cbn [recentLoop].
  apply String.eqb_neq in Hkey. rewrite Hkey. cbn [negb].
  unfold bind, result, history in *.
  destruct (Property p property tr) as [[v err] tr']. cbn in Hread.
  injection Hread as -> ->.
  apply String.eqb_neq in Hvalue. rewrite Hvalue. reflexivity.
Qed.

Lemma recentLoop_hit (property p : string) (rest : list string) (tr : trace) :
  property <> "" ->
  result (Property p property) tr = ("true", None) ->
  recentLoop (p :: rest) property tr = ((p, None), history (Property p property) tr).
Proof.
  intros Hkey Hread. cbn [recentLoop].
  apply String.eqb_neq in Hkey. rewrite Hkey. cbn [negb].
  unfold bind, result, history, ret in *.
  destruct (Property p property tr) as [[v err] tr']. cbn in Hread.
  injection Hread as -> ->. reflexivity.
Qed.

Lemma recentLoop_abort (property p value : string) (e : error) (rest : list string)
  (tr : trace) :
  property <> "" ->
  result (Property p property) tr = (value, Some e) ->
  recentLoop (p :: rest) property tr = (("", None), history (Property p property) tr).
Proof.
  intros Hkey Hread. cbn [recentLoop].
  apply String.eqb_neq in Hkey. rewrite Hkey. cbn [negb].
  unfold bind, result, history, ret in *.
  destruct (Property p property tr) as [[v err] tr']. cbn in Hread.
  injection Hread as -> ->. reflexivity.
Qed.

Lemma unmarked_cons (property p : string) (pre : list string) (tr : trace) :
  unmarked property tr (p :: pre) ->
  (exists value, result (Property p property) tr = (value, None) /\ value <> "true")
  /\ unmarked property (history (Property p property) tr) pre.
Proof.
  intros H. split.
  - exact (H [] p pre eq_refl).
  - intros pre1 q pre2 ->. exact (H (p :: pre1) q pre2 eq_refl).
Qed.

(** the loop passes over a prefix of unmarked candidates *)
Lemma recentLoop_prefix (property : string) (pre rest : list string) (tr : trace) :
  property <> "" -> unmarked property tr pre ->
  recentLoop (pre ++ rest) property tr
  = recentLoop rest property (afterReads property pre tr).
Proof.
  intros Hkey. revert tr. induction pre as [|p pre IH]; intros tr Hpre.
  - reflexivity.
  - apply unmarked_cons in Hpre. destruct Hpre as [[value [Hread Hvalue]] Hpre].
    cbn [app]. rewrite (recentLoop_pass property p value _ tr Hkey Hread Hvalue).
    rewrite (IH _ Hpre). reflexivity.
Qed.

Lemma RecentSnap_listing (snap property stdout : string) (tr : trace) :
  let c := Command "zfs"
             ["list"; "-Hro"; "name"; "-t"; "snapshot"; "-S"; "creation"; snap] in
  let tr1 := tr ++ [EvCmdError c None] in
  cmdError tr c = None -> run tr1 c = (stdout, None) ->
  RecentSnap snap property tr
  = recentLoop (strings.Split stdout) property (tr1 ++ [EvRun c stdout None]).
Proof.
  cbv zeta. intros Hc Hr. unfold RecentSnap, bind, ret, CmdError, Run.
  rewrite Hc. cbn -[recentLoop]. rewrite Hr. reflexivity.
Qed.

(** C1 (as the code has it): with a non-empty property key and a listing
    that succeeded, [RecentSnap] reads the property of the candidates in
    listing order.  Past candidates that read, without error, as
    something other than "true", it returns the first candidate that
    reads as the literal "true"; a candidate whose read fails ends the
    scan there, with the empty string and a nil error and no read of a
    later candidate; when every candidate reads as something other than
    "true" it returns the empty string and a nil error. *)
Theorem RecentSnap_scan (snap property : string) (tr : trace) :
  let c := Command "zfs"
             ["list"; "-Hro"; "name"; "-t"; "snapshot"; "-S"; "creation"; snap] in
  let tr1 := tr ++ [EvCmdError c None] in
  property <> "" ->
  cmdError tr c = None ->
  forall stdout, run tr1 c = (stdout, None) ->
  let tr2 := tr1 ++ [EvRun c stdout None] in
  let out := strings.Split stdout in
  (forall pre s post, out = pre ++ s :: post -> unmarked property tr2 pre ->
     result (Property s property) (afterReads property pre tr2) = ("true", None) ->
     result (RecentSnap snap property) tr = (s, None))
  /\ (forall pre s post value e, out = pre ++ s :: post -> unmarked property tr2 pre ->
        result (Property s property) (afterReads property pre tr2) = (value, Some e) ->
        result (RecentSnap snap property) tr = ("", None)
        /\ history (RecentSnap snap property) tr
           = history (Property s property) (afterReads property pre tr2))
  /\ (unmarked property tr2 out -> result (RecentSnap snap property) tr = ("", None)).
Proof.
  cbv zeta. intros Hkey Hc stdout Hr.
  unfold result at 2 4 5, history at 1.
  rewrite (RecentSnap_listing snap property stdout tr Hc Hr).
  split; [|split].
  - intros pre s post Hout Hpre Hread. rewrite Hout.
    rewrite (recentLoop_prefix property pre _ _ Hkey Hpre).
    rewrite (recentLoop_hit property s post _ Hkey Hread). reflexivity.
  - intros pre s post value e Hout Hpre Hread. rewrite Hout.
    rewrite (recentLoop_prefix property pre _ _ Hkey Hpre).
    rewrite (recentLoop_abort property s value e post _ Hkey Hread).
    split; reflexivity.
  - intros Hall.
    rewrite <- (app_nil_r (strings.Split stdout)).
    rewrite (recentLoop_prefix property _ [] _ Hkey Hall). reflexivity.
Qed.

End RecentClaims.

(** C1, refuted as stated: on the sample pool the newest snapshot of
    [tank] cannot be read for [backup] and the older one carries
    [backup = true]: passing over the failed read would select the older
    snapshot, and [RecentSnap] returns the empty string. *)
Lemma RecentSnap_lenient_counterexample :
  let reads := fun s => result (@Property poolRunner s "backup") [] in
  result (@RecentSnap poolRunner "tank" "backup") [] = ("", None)
  /\ Spec.lenientScan reads ["tank@new"; "tank@old"] = ("tank@old", None)
  /\ snd (reads "tank@new") = Some "exit status 1"
  /\ reads "tank@old" = ("true", None).
Proof.
  cbv zeta. repeat split; reflexivity.
Qed.

Lemma RecentSnap_scan_witness :
  let c := Command "zfs"
             ["list"; "-Hro"; "name"; "-t"; "snapshot"; "-S"; "creation"; "tank"] in
  "keep" <> ""
  /\ @cmdError poolRunner [] c = None
  /\ @run poolRunner [EvCmdError c None] c = (("tank@new" ++ nl ++ "tank@old")%string, None)
  /\ result (@RecentSnap poolRunner "tank" "keep") [] = ("tank@old", None).
Proof.
  cbv zeta. split; [discriminate|]. split; [reflexivity|]. split; [reflexivity|].
  apply (proj1 (@RecentSnap_scan poolRunner "tank" "keep" []
                  ltac:(discriminate) eq_refl _ eq_refl)
           ["tank@new"] "tank@old" []).
  - reflexivity.
  - intros pre1 p pre2 Hpre.
    destruct pre1 as [|q pre1]; [|destruct pre1; discriminate].
    injection Hpre as <- <-. exists "false". split; [reflexivity|discriminate].
  - reflexivity.
Defined.

(** ** The streaming copy, step by step *)

Module CopyFacts.
Import io.

Lemma bufSize_pos : 0 < bufSize.
Proof.
  unfold bufSize. apply Nat.mul_pos_pos; apply Nat.lt_0_succ.
Qed.

#[global] Opaque bufSize.

Lemma Read_inv (size : nat) (src src' : Reader) (buf : list byte) (er : readStatus) :
  0 < size -> Read size src = ((buf, er), src') ->
  length buf <= size
  /\ bytesOf src = buf ++ bytesOf src'
  /\ readErr src' = readErr src
  /\ match er with
     | ReadMore => True
     | ReadEOF => buf = [] /\ bytesOf src = [] /\ readErr src = None
     | ReadErr e => buf = [] /\ bytesOf src = [] /\ readErr src = Some e
     end.
Proof.
  intros Hsize. unfold Read, bytesOf. destruct src as [cs fin]; cbn.
  destruct cs as [|c rest].
  - intros H; injection H as <- <- <-. cbn.
    repeat split; try lia; destruct fin; repeat split; reflexivity.
  - intros H; injection H as <- <- <-. cbn.
    split; [apply firstn_le_length|]. split; [|split; [reflexivity|exact I]].
    rewrite <- (firstn_skipn size c) at 1. rewrite <- app_assoc. f_equal.
    destruct (skipn size c); reflexivity.
Qed.

Lemma Write_inv (dst dst' : Writer) (p taken : list byte) (ew : option error) :
  Write dst p = ((taken, ew), dst') ->
  match dst with
  | None => taken = p /\ ew = None /\ dst' = None
  | Some (room, e) =>
      if Nat.leb (length p) room
      then taken = p /\ ew = None /\ dst' = Some (room - length p, e)
      else taken = firstn room p /\ ew = Some e
  end.
Proof.
  unfold Write. destruct dst as [[room e]|].
  - destruct (Nat.leb (length p) room); intros H; injection H as <- <- <-; repeat split.
  - intros H; injection H as <- <- <-. repeat split.
Qed.

Lemma Write_taken_le (dst dst' : Writer) (p taken : list byte) (ew : option error) :
  Write dst p = ((taken, ew), dst') -> length taken <= length p.
Proof.
  intros Hw. apply Write_inv in Hw. destruct dst as [[room e]|].
  - destruct (Nat.leb (length p) room).
    + destruct Hw as (-> & _). lia.
    + destruct Hw as (-> & _). rewrite length_firstn. lia.
  - destruct Hw as (-> & _). lia.
Qed.

Lemma Write_clean (dst dst' : Writer) (p taken : list byte) :
  Write dst p = ((taken, None), dst') -> taken = p.
Proof.
  intros Hw. apply Write_inv in Hw. destruct dst as [[room e]|].
  - destruct (Nat.leb (length p) room).
    + destruct Hw as (-> & _). reflexivity.
    + destruct Hw as (_ & Hw). discriminate.
  - destruct Hw as (-> & _). reflexivity.
Qed.

Lemma delivered_step (dst dst' : Writer) (src src' : Reader) (p : list byte) :
  bytesOf src = p ++ bytesOf src' -> readErr src' = readErr src ->
  Write dst p = ((p, None), dst') ->
  delivered dst src = (p ++ fst (delivered dst' src'), snd (delivered dst' src')).
Proof.
  intros Hbytes Herr Hw. apply Write_inv in Hw. unfold delivered.
  destruct dst as [[room e]|].
  - destruct (Nat.leb (length p) room) eqn:Hfit.
    + destruct Hw as (_ & _ & ->). apply Nat.leb_le in Hfit.
      rewrite Hbytes, length_app, Herr.
      destruct (Nat.leb (length (bytesOf src')) (room - length p)) eqn:Hrest.
      * apply Nat.leb_le in Hrest.
        replace (Nat.leb (length p + length (bytesOf src')) room) with true
          by (symmetry; apply Nat.leb_le; lia).
        reflexivity.
      * apply Nat.leb_gt in Hrest.
        replace (Nat.leb (length p + length (bytesOf src')) room) with false
          by (symmetry; apply Nat.leb_gt; lia).
        cbn [fst snd]. rewrite firstn_app.
        rewrite firstn_all2 by lia. reflexivity.
    + destruct Hw as [_ Hw]. discriminate.
  - destruct Hw as (_ & _ & ->). rewrite Hbytes, Herr. reflexivity.
Qed.

Lemma delivered_stop (dst dst' : Writer) (src src' : Reader) (p taken : list byte)
  (ew : error) :
  bytesOf src = p ++ bytesOf src' ->
  Write dst p = ((taken, Some ew), dst') ->
  delivered dst src = (taken, Some ew).
Proof.
  intros Hbytes Hw. apply Write_inv in Hw. unfold delivered.
  destruct dst as [[room e]|].
  - destruct (Nat.leb (length p) room) eqn:Hfit.
    + destruct Hw as (_ & Hw & _). discriminate.
    + destruct Hw as [-> Hw]. injection Hw as ->. apply Nat.leb_gt in Hfit.
      rewrite Hbytes, length_app.
      replace (Nat.leb (length p + length (bytesOf src')) room) with false
        by (symmetry; apply Nat.leb_gt; lia).
      rewrite firstn_app. replace (room - length p) with 0 by lia.
      rewrite firstn_O, app_nil_r. reflexivity.
  - destruct Hw as (_ & Hw & _). discriminate.
Qed.

(** The copy loop hands the consumer exactly what [delivered] says, in
    order, in loads of at most [bufSize] bytes, counts them, and returns
    the error [delivered] says. *)
Lemma copyBuffer_spec (dst : Writer) (src : Reader) (written : nat)
  (writes : list (list byte)) :
  exists loads,
    copyBuffer dst src written writes
    = ((written + length (concat loads), snd (delivered dst src)), writes ++ loads)
    /\ concat loads = fst (delivered dst src)
    /\ Forall (fun load => length load <= bufSize) loads.
Proof.
  funelim (copyBuffer dst src written writes).
  - (* an empty read, more to come *)
    match goal with Hr : Read _ _ = _ |- _ =>
      destruct (Read_inv _ _ _ _ _ bufSize_pos Hr) as (_ & Hbytes & Herr & _) end.
    match goal with IH : exists _, _ |- _ => destruct IH as (loads & Heq & Hcat & Hall) end.
    exists loads.
    assert (Hd : delivered dst src = delivered dst src').
    { unfold delivered. cbn in Hbytes. rewrite Hbytes, Herr. reflexivity. }
    rewrite Hd. auto.
  - (* end of stream *)
    match goal with Hr : Read _ _ = _ |- _ =>
      destruct (Read_inv _ _ _ _ _ bufSize_pos Hr) as (_ & _ & _ & _ & Hnil & Hfin) end.
    exists []. unfold delivered. rewrite Hnil, Hfin.
    destruct dst as [[room ?]|]; cbn; rewrite Nat.add_0_r, app_nil_r; auto.
  - (* a failed read *)
    match goal with Hr : Read _ _ = _ |- _ =>
      destruct (Read_inv _ _ _ _ _ bufSize_pos Hr) as (_ & _ & _ & _ & Hnil & Hfin) end.
    exists []. unfold delivered. rewrite Hnil, Hfin.
    destruct dst as [[room ?]|]; cbn; rewrite Nat.add_0_r, app_nil_r; auto.
  - (* the consumer stops taking bytes *)
    match goal with Hr : Read _ _ = _ |- _ =>
      destruct (Read_inv _ _ _ _ _ bufSize_pos Hr) as (Hlen & Hbytes & _ & _) end.
    match goal with Hw : Write _ _ = _ |- _ =>
      pose proof (Write_taken_le _ _ _ _ _ Hw) as Htaken;
      rewrite (delivered_stop _ _ _ _ _ _ _ Hbytes Hw) end.
    exists [taken]. cbn [concat fst snd]. rewrite app_nil_r.
    repeat split. constructor; [lia|constructor].
  - (* a short write without an error: the consumer never does that *)
    match goal with Hw : Write _ _ = _ |- _ => apply Write_inv in Hw; rename Hw into Hw' end.
    match goal with Hn : Nat.eqb _ _ = false |- _ => apply Nat.eqb_neq in Hn; rename Hn into Hn' end.
    exfalso. apply Hn'.
    destruct dst as [[room ?]|].
    + destruct (Nat.leb _ room); [destruct Hw' as (-> & _); reflexivity|].
      destruct Hw' as (_ & Hw'). discriminate.
    + destruct Hw' as (-> & _). reflexivity.
  - (* a full load went through, more to come *)
    match goal with Hr : Read _ _ = _ |- _ =>
      destruct (Read_inv _ _ _ _ _ bufSize_pos Hr) as (Hlen & Hbytes & Herr & _) end.
    match goal with IH : exists _, _ |- _ => destruct IH as (loads & Heq' & Hcat & Hall) end.
    match goal with Hw : Write _ _ = _ |- _ =>
      pose proof (Write_clean _ _ _ _ Hw) as Hsame; subst taken;
      rewrite (delivered_step _ _ _ _ _ Hbytes Herr Hw) end.
    exists ((b :: buf) :: loads). cbn [concat fst snd].
    rewrite Heq'. rewrite length_app, <- !app_assoc, Nat.add_assoc, Hcat.
    repeat split. constructor; assumption.
  - (* end of stream never comes with bytes *)
    match goal with Hr : Read _ _ = _ |- _ =>
      destruct (Read_inv _ _ _ _ _ bufSize_pos Hr) as (_ & _ & _ & Hnil & _) end.
    discriminate.
  - match goal with Hr : Read _ _ = _ |- _ =>
      destruct (Read_inv _ _ _ _ _ bufSize_pos Hr) as (_ & _ & _ & Hnil & _) end.
    discriminate.
Qed.


End CopyFacts.

(** ** Replication *)

Section ReplicationClaims.
Context {R : Runner}.

(** [SendSnap], one runner answer at a time *)
Lemma SendSnap_cases (fs snapOld snapNew : string) (cw : CmdWorker) (tr : trace) :
  let sw := Command "zfs" (sendArgs fs snapOld snapNew) in
  let tr1 := tr ++ [EvCmdError sw None] in
  let tr2 := tr1 ++ [EvStdoutPipe sw None] in
  let tr3 := tr2 ++ [EvStdinPipe cw None] in
  let tr4 := tr3 ++ [EvStart sw None] in
  SendSnap fs snapOld snapNew cw tr =
  match cmdError tr sw with
  | Some e => ((None, Some e), tr ++ [EvCmdError sw (Some e)])
  | None =>
      match stdoutPipe tr1 sw with
      | inr e => ((None, Some e), tr1 ++ [EvStdoutPipe sw (Some e)])
      | inl src =>
          match stdinPipe tr2 cw with
          | inr e => ((None, Some e), tr2 ++ [EvStdinPipe cw (Some e)])
          | inl dst =>
              match start tr3 sw with
              | Some e => ((None, Some e), tr3 ++ [EvStart sw (Some e)])
              | None =>
                  let '((written, err), writes) := io.copyBuffer dst src 0 [] in
                  ((Some sw, err), tr4 ++ [EvCopy writes written err])
              end
          end
      end
  end.
Proof.
  cbv zeta. unfold SendSnap, bind, ret, CmdError, StdoutPipe, StdinPipe, Start, io.Copy.
  destruct (cmdError tr _) as [e|]; [reflexivity|].
  destruct (stdoutPipe _ _) as [src|e]; [|reflexivity].
  destruct (stdinPipe _ _) as [dst|e]; [|reflexivity].
  destruct (start _ _) as [e|]; [reflexivity|].
  cbn [isOk]. destruct (io.copyBuffer dst src 0 []) as [[written err] writes].
  reflexivity.
Qed.

(** C6: with an empty new snapshot name the producer's arguments are
    [send fs@old], two arguments and no second snapshot; with a non-empty
    one they are [send -i fs@old fs@new].  The producer [SendSnap] works
    on is [zfs] with exactly these arguments: its validation is the first
    call made, and it is the worker handed back when one is. *)
Theorem SendSnap_producer_invocation (fs snapOld snapNew : string) (cw : CmdWorker)
  (tr : trace) :
  (snapNew = "" -> sendArgs fs snapOld snapNew = ["send"; (fs ++ "@" ++ snapOld)%string])
  /\ (snapNew <> "" ->
      sendArgs fs snapOld snapNew
      = ["send"; "-i"; (fs ++ "@" ++ snapOld)%string; (fs ++ "@" ++ snapNew)%string])
  /\ (exists r rest,
        history (SendSnap fs snapOld snapNew cw) tr
        = tr ++ EvCmdError (Command "zfs" (sendArgs fs snapOld snapNew)) r :: rest)
  /\ (forall worker, fst (result (SendSnap fs snapOld snapNew cw) tr) = Some worker ->
        worker = Command "zfs" (sendArgs fs snapOld snapNew)).
Proof.
  split; [|split; [|split]].
  - intros ->. reflexivity.
  - intros Hnew. unfold sendArgs. apply String.eqb_neq in Hnew. rewrite Hnew. reflexivity.
  - unfold history. rewrite SendSnap_cases.
    destruct (cmdError tr _) as [e|]; [eexists; exists []; reflexivity|].
    destruct (stdoutPipe _ _) as [src|e];
      [|eexists; eexists; cbn [snd]; rewrite <- app_assoc; reflexivity].
    destruct (stdinPipe _ _) as [dst|e];
      [|eexists; eexists; cbn [snd]; rewrite <- !app_assoc; reflexivity].
    destruct (start _ _) as [e|];
      [eexists; eexists; cbn [snd]; rewrite <- !app_assoc; reflexivity|].
    destruct (io.copyBuffer dst src 0 []) as [[written err] writes].
    eexists; eexists; cbn [snd]; rewrite <- !app_assoc; reflexivity.
  - unfold result. rewrite SendSnap_cases.
    destruct (cmdError tr _) as [e|]; [discriminate|].
    destruct (stdoutPipe _ _) as [src|e]; [|discriminate].
    destruct (stdinPipe _ _) as [dst|e]; [|discriminate].
    destruct (start _ _) as [e|]; [discriminate|].
    destruct (io.copyBuffer dst src 0 []) as [[written err] writes].
    cbn. intros worker H. injection H as <-. reflexivity.
Qed.

(** C7: in the calls [SendSnap] adds to the history, a start call is the
    producer's and comes after both the producer's output pipe and the
    consumer's input pipe were acquired without error.  When validation,
    either pipe acquisition or the start call fails, that call is the
    last one made, its error is returned with a nil worker, and no
    successful start is in the history; a nil worker always means that no
    producer was started. *)
Theorem SendSnap_start_after_pipes (fs snapOld snapNew : string) (cw : CmdWorker)
  (tr : trace) :
  let sw := Command "zfs" (sendArgs fs snapOld snapNew) in
  exists evs,
    history (SendSnap fs snapOld snapNew cw) tr = tr ++ evs
    /\ (forall before c r after, evs = before ++ EvStart c r :: after ->
          c = sw /\ In (EvStdoutPipe sw None) before /\ In (EvStdinPipe cw None) before)
    /\ (forall ev e, failedStep sw cw e ev -> In ev evs ->
          result (SendSnap fs snapOld snapNew cw) tr = (None, Some e)
          /\ (exists before, evs = before ++ [ev])
          /\ ~ In (EvStart sw None) evs)
    /\ (fst (result (SendSnap fs snapOld snapNew cw) tr) = None ->
          ~ In (EvStart sw None) evs).
Proof.
  cbv zeta. unfold history, result. rewrite SendSnap_cases.
  set (sw := Command "zfs" (sendArgs fs snapOld snapNew)).
  destruct (cmdError tr sw) as [e1|].
  { exists [EvCmdError sw (Some e1)]. split; [reflexivity|]. split; [|split].
    - intros before c r after H. walk before H.
    - intros ev e Hev Hin. destruct Hin as [<-|[]]. step_error Hev.
      split; [reflexivity|]. split; [exists []; reflexivity|]. no_start.
    - intros _. no_start. }
  destruct (stdoutPipe _ sw) as [src|e2].
  2:{ exists [EvCmdError sw None; EvStdoutPipe sw (Some e2)].
      split; [cbn [snd]; rewrite <- app_assoc; reflexivity|]. split; [|split].
      - intros before c r after H. walk before H.
      - intros ev e Hev Hin. destruct Hin as [<-|[<-|[]]]; step_error Hev.
        split; [reflexivity|]. split; [exists [EvCmdError sw None]; reflexivity|]. no_start.
      - intros _. no_start. }
  destruct (stdinPipe _ cw) as [dst|e3].
  2:{ exists [EvCmdError sw None; EvStdoutPipe sw None; EvStdinPipe cw (Some e3)].
      split; [cbn [snd]; rewrite <- !app_assoc; reflexivity|]. split; [|split].
      - intros before c r after H. walk before H.
      - intros ev e Hev Hin. destruct Hin as [<-|[<-|[<-|[]]]]; step_error Hev.
        split; [reflexivity|].
        split; [exists [EvCmdError sw None; EvStdoutPipe sw None]; reflexivity|]. no_start.
      - intros _. no_start. }
  destruct (start _ sw) as [e4|].
  { exists [EvCmdError sw None; EvStdoutPipe sw None; EvStdinPipe cw None;
            EvStart sw (Some e4)].
    split; [cbn [snd]; rewrite <- !app_assoc; reflexivity|]. split; [|split].
    - intros before c r after H. walk before H.
    - intros ev e Hev Hin. destruct Hin as [<-|[<-|[<-|[<-|[]]]]]; step_error Hev.
      split; [reflexivity|].
      split; [exists [EvCmdError sw None; EvStdoutPipe sw None; EvStdinPipe cw None];
              reflexivity|]. no_start.
    - intros _. no_start. }
  destruct (io.copyBuffer dst src 0 []) as [[written err] writes].
  exists [EvCmdError sw None; EvStdoutPipe sw None; EvStdinPipe cw None;
          EvStart sw None; EvCopy writes written err].
  split; [cbn [snd]; rewrite <- !app_assoc; reflexivity|]. split; [|split].
  - intros before c r after H. walk before H.
  - intros ev e Hev Hin. destruct Hin as [<-|[<-|[<-|[<-|[<-|[]]]]]]; step_error Hev.
  - cbn. discriminate.
Qed.

(** C8: once the producer has been started, [SendSnap] returns the
    producer's worker together with the error of the copy, which is the
    first one the copy met: nil when the producer's output ends cleanly
    and the consumer took it all, the producer's read error when the
    consumer took all that came before it, and the consumer's write error
    when the consumer stopped taking bytes before the output ended. *)
Theorem SendSnap_returns_handle_with_copy_error (fs snapOld snapNew : string)
  (cw : CmdWorker) (tr : trace) (src : Reader) (dst : Writer) :
  let sw := Command "zfs" (sendArgs fs snapOld snapNew) in
  let tr1 := tr ++ [EvCmdError sw None] in
  let tr2 := tr1 ++ [EvStdoutPipe sw None] in
  let tr3 := tr2 ++ [EvStdinPipe cw None] in
  cmdError tr sw = None -> stdoutPipe tr1 sw = inl src ->
  stdinPipe tr2 cw = inl dst -> start tr3 sw = None ->
  result (SendSnap fs snapOld snapNew cw) tr
  = (Some sw, snd (fst (io.copyBuffer dst src 0 [])))
  /\ (hasRoom dst (length (bytesOf src)) -> readErr src = None ->
        result (SendSnap fs snapOld snapNew cw) tr = (Some sw, None))
  /\ (forall e, hasRoom dst (length (bytesOf src)) -> readErr src = Some e ->
        result (SendSnap fs snapOld snapNew cw) tr = (Some sw, Some e))
  /\ (forall room e, dst = Some (room, e) -> room < length (bytesOf src) ->
        result (SendSnap fs snapOld snapNew cw) tr = (Some sw, Some e)).
Proof.
  cbv zeta. intros Hc Hout Hin Hstart.
  unfold result. rewrite SendSnap_cases. rewrite Hc, Hout, Hin, Hstart.
  destruct (CopyFacts.copyBuffer_spec dst src 0 []) as (loads & Heq & _ & _).
  rewrite Heq. cbn [fst snd]. split; [reflexivity|]. split; [|split].
  - intros Hroom Hfin. unfold delivered.
    destruct dst as [[room e]|]; [|rewrite Hfin; reflexivity].
    cbn in Hroom. apply Nat.leb_le in Hroom. rewrite Hroom, Hfin. reflexivity.
  - intros e Hroom Hfin. unfold delivered.
    destruct dst as [[room e']|]; [|rewrite Hfin; reflexivity].
    cbn in Hroom. apply Nat.leb_le in Hroom. rewrite Hroom, Hfin. reflexivity.
  - intros room e -> Hroom. unfold delivered.
    apply Nat.leb_gt in Hroom. rewrite Hroom. reflexivity.
Qed.

(** The bytes of a transfer (what C2 says of them; the memory a copy
    takes is nothing this embedding can speak of): when the producer has
    been started, its output ends cleanly and
    the consumer takes it all, the copy step of [SendSnap] hands the
    consumer exactly the bytes of that output, in order and all [N] of
    them, and reports [N] bytes written and a nil error; the bytes go
    through in loads of at most [io.bufSize] bytes each, whatever [N]
    is. *)
Theorem SendSnap_streams_payload (fs snapOld snapNew : string) (cw : CmdWorker)
  (tr : trace) (src : Reader) (dst : Writer) :
  let sw := Command "zfs" (sendArgs fs snapOld snapNew) in
  let tr1 := tr ++ [EvCmdError sw None] in
  let tr2 := tr1 ++ [EvStdoutPipe sw None] in
  let tr3 := tr2 ++ [EvStdinPipe cw None] in
  let tr4 := tr3 ++ [EvStart sw None] in
  cmdError tr sw = None -> stdoutPipe tr1 sw = inl src ->
  stdinPipe tr2 cw = inl dst -> start tr3 sw = None ->
  readErr src = None -> hasRoom dst (length (bytesOf src)) ->
  exists writes,
    SendSnap fs snapOld snapNew cw tr
    = ((Some sw, None), tr4 ++ [EvCopy writes (length (bytesOf src)) None])
    /\ concat writes = bytesOf src
    /\ Forall (fun load => length load <= io.bufSize) writes.
Proof.
  cbv zeta. intros Hc Hout Hin Hstart Hfin Hroom.
  rewrite SendSnap_cases. rewrite Hc, Hout, Hin, Hstart.
  destruct (CopyFacts.copyBuffer_spec dst src 0 []) as (loads & Heq & Hcat & Hall).
  assert (Hd : delivered dst src = (bytesOf src, None)).
  { unfold delivered. destruct dst as [[room e]|]; [|rewrite Hfin; reflexivity].
    cbn in Hroom. apply Nat.leb_le in Hroom. rewrite Hroom, Hfin. reflexivity. }
  rewrite Hd in Heq, Hcat. cbn [fst snd] in Heq, Hcat.
  exists loads. rewrite Heq, Hcat. cbn [app]. repeat split; assumption.
Qed.

End ReplicationClaims.

Lemma SendSnap_returns_handle_with_copy_error_witness :
  let sw := Command "zfs" ["send"; "-i"; "tank@old"; "tank@new"] in
  let cw := Command "zfs" ["recv"; "backup@new"] in
  @start brokenPipeRunner
    [EvCmdError sw None; EvStdoutPipe sw None; EvStdinPipe cw None] sw = None
  /\ result (@SendSnap brokenPipeRunner "tank" "old" "new" cw) []
     = (Some sw, Some "write |1: broken pipe").
Proof.
  cbv zeta. split; [reflexivity|].
  apply (proj2 (proj2 (proj2
           (@SendSnap_returns_handle_with_copy_error brokenPipeRunner "tank" "old" "new"
              (Command "zfs" ["recv"; "backup@new"]) [] payload
              (Some (2, "write |1: broken pipe"))
              eq_refl eq_refl eq_refl eq_refl))) 2 "write |1: broken pipe" eq_refl).
  cbn. lia.
Defined.

Lemma SendSnap_streams_payload_witness :
  let sw := Command "zfs" ["send"; "tank@old"] in
  let cw := Command "zfs" ["recv"; "backup@old"] in
  readErr payload = None
  /\ hasRoom None (length (bytesOf payload))
  /\ exists writes,
       @SendSnap poolRunner "tank" "old" "" cw []
       = ((Some sw, None),
          [EvCmdError sw None; EvStdoutPipe sw None; EvStdinPipe cw None;
           EvStart sw None; EvCopy writes 3 None])
       /\ concat writes = [x01; x02; x03]
       /\ Forall (fun load => length load <= io.bufSize) writes.
Proof.
  cbv zeta. split; [reflexivity|]. split; [exact I|].
  exact (@SendSnap_streams_payload poolRunner "tank" "old" ""
           (Command "zfs" ["recv"; "backup@old"]) [] payload None
           eq_refl eq_refl eq_refl eq_refl eq_refl I).
Defined.

(** a consumer that closes after two of three bytes: the third byte is
    offered and refused, and the producer's worker comes back with the
    consumer's error *)
Example SendSnap_broken_pipe :
  let sw := Command "zfs" ["send"; "tank@old"] in
  let cw := Command "zfs" ["recv"; "backup@old"] in
  @SendSnap brokenPipeRunner "tank" "old" "" cw []
  = ((Some sw, Some "write |1: broken pipe"),
     [EvCmdError sw None; EvStdoutPipe sw None; EvStdinPipe cw None;
      EvStart sw None; EvCopy [[x01; x02]; []] 2 (Some "write |1: broken pipe")]).
Proof. vm_compute. reflexivity. Qed.

(** a producer whose output cannot be piped is never started *)
Example SendSnap_no_pipe :
  let sw := Command "zfs" ["send"; "tank@old"] in
  @SendSnap noPipeRunner "tank" "old" "" (Command "zfs" ["recv"; "backup@old"]) []
  = ((None, Some "StdoutPipe: stdout already set"),
     [EvCmdError sw None; EvStdoutPipe sw (Some "StdoutPipe: stdout already set")]).
Proof. vm_compute. reflexivity. Qed.

(** copies of nothing, of less than a buffer, and of more than two buffers *)
Example copyBuffer_empty :
  io.copyBuffer None (mkReader [] None) 0 [] = ((0, None), []).
Proof. reflexivity. Qed.

Example copyBuffer_small :
  io.copyBuffer None payload 0 [] = ((3, None), [[x01; x02]; [x03]]).
Proof. vm_compute. reflexivity. Qed.

Example copyBuffer_bulk :
  let '((written, err), writes) := io.copyBuffer None bulk 0 [] in
  (N.of_nat written, err, map (fun load => N.of_nat (length load)) writes)
  = (70000%N, None, [32768%N; 32768%N; 4464%N]).
Proof. vm_compute. reflexivity. Qed.

(** ** Facts about the text helpers *)

Module TextFacts.
Import strings.

Lemma SplitByte_nonempty (sep : ascii) (s : string) : SplitByte sep s <> [].
Proof.
  destruct s as [|c s]; cbn; [discriminate|].
  destruct (Ascii.eqb c sep); [discriminate|].
  destruct (SplitByte sep s); discriminate.
Qed.

Lemma oneLine_cons (c : ascii) (s : string) :
  oneLine (String c s) <-> Ascii.eqb c newline = false /\ oneLine s.
Proof.
  unfold oneLine. cbn [inCutset]. rewrite Ascii.eqb_sym.
  destruct (Ascii.eqb c newline); cbn; intuition congruence.
Qed.

(** a line and its terminator come off the front of a text *)
Lemma Split_line (line rest : string) :
  oneLine line ->
  Split (line ++ String newline rest) = line :: Split rest.
Proof.
  unfold Split. induction line as [|c line IH]; intros Hline.
  - cbn [append SplitByte]. rewrite Ascii.eqb_refl. reflexivity.
  - apply oneLine_cons in Hline. destruct Hline as [Hc Hline].
    cbn [append SplitByte]. rewrite Hc. rewrite (IH Hline). reflexivity.
Qed.

Lemma Split_oneLine (line : string) : oneLine line -> Split line = [line].
Proof.
  unfold Split. induction line as [|c line IH]; intros Hline; [reflexivity|].
  apply oneLine_cons in Hline. destruct Hline as [Hc Hline].
  cbn [SplitByte]. rewrite Hc, (IH Hline). reflexivity.
Qed.

Lemma Split_unlines (lines : list string) :
  Forall oneLine lines -> Split (unlines lines) = lines ++ [""].
Proof.
  induction 1 as [|line lines Hline _ IH]; [reflexivity|].
  cbn [unlines fold_right]. rewrite (Split_line _ _ Hline).
  fold (unlines lines). rewrite IH. reflexivity.
Qed.

Lemma Split_joinLines (lines : list string) :
  lines <> [] -> Forall oneLine lines -> Split (joinLines lines) = lines.
Proof.
  intros Hne Hall. induction Hall as [|line lines Hline Hall IH]; [contradiction|].
  destruct lines as [|next lines].
  - cbn [joinLines]. apply Split_oneLine, Hline.
  - change (joinLines (line :: next :: lines))
      with (line ++ String newline (joinLines (next :: lines)))%string.
    rewrite (Split_line _ _ Hline).
    rewrite IH by discriminate. reflexivity.
Qed.

(** no piece of a split holds a line terminator *)
Lemma Split_pieces (s : string) : Forall oneLine (Split s).
Proof.
  unfold Split. induction s as [|c s IH]; cbn [SplitByte].
  - repeat constructor.
  - destruct (Ascii.eqb c newline) eqn:Hc.
    + constructor; [reflexivity|exact IH].
    + destruct (SplitByte newline s) as [|piece pieces].
      * constructor; [|constructor]. apply oneLine_cons. split; [exact Hc|reflexivity].
      * inversion IH; subst. constructor; [|assumption].
        apply oneLine_cons. split; assumption.
Qed.

Lemma dropTrailingEmpty_terminated (lines : list string) :
  lines <> [] -> dropTrailingEmpty (lines ++ [""]) = lines.
Proof.
  intros Hne. unfold dropTrailingEmpty.
  rewrite length_app. cbn [length].
  replace (length lines + 1 - 1) with (length lines) by lia.
  destruct lines as [|line lines]; [contradiction|].
  replace (Nat.ltb 1 (length (line :: lines) + 1)) with true
    by (symmetry; apply Nat.ltb_lt; cbn; lia).
  rewrite app_nth2 by lia. rewrite Nat.sub_diag. cbn [nth].
  cbn [String.eqb]. rewrite firstn_app, Nat.sub_diag, firstn_all. cbn [firstn].
  apply app_nil_r.
Qed.

Lemma dropTrailingEmpty_open (lines : list string) :
  last lines "x" <> "" -> dropTrailingEmpty lines = lines.
Proof.
  intros Hlast. unfold dropTrailingEmpty.
  destruct (Nat.ltb 1 (length lines)) eqn:Hlen; [|reflexivity].
  apply Nat.ltb_lt in Hlen.
  destruct (String.eqb (nth (length lines - 1) lines "") "") eqn:Hnth; [|reflexivity].
  apply String.eqb_eq in Hnth. exfalso. apply Hlast.
  destruct (@exists_last _ lines) as (front & final & ->).
  { intros ->. cbn in Hlen. lia. }
  rewrite last_last. rewrite length_app in Hnth. cbn [length] in Hnth.
  rewrite app_nth2 in Hnth by lia.
  replace (length front + 1 - 1 - length front) with 0 in Hnth by lia.
  exact Hnth.
Qed.

Lemma dropTrailingEmpty_nonempty (out : list string) :
  out <> [] -> dropTrailingEmpty out <> [].
Proof.
  intros Hne. unfold dropTrailingEmpty.
  destruct (Nat.ltb 1 (length out)) eqn:Hlen; [|exact Hne].
  apply Nat.ltb_lt in Hlen.
  destruct (String.eqb _ _); [|exact Hne].
  destruct out as [|a [|b out]]; cbn in Hlen; try lia. cbn. discriminate.
Qed.

Lemma dropTrailingEmpty_incl (out : list string) (x : string) :
  In x (dropTrailingEmpty out) -> In x out.
Proof.
  unfold dropTrailingEmpty.
  destruct (Nat.ltb 1 (length out)); [|auto].
  destruct (String.eqb _ _); [|auto].
  intros Hin. rewrite <- (firstn_skipn (length out - 1) out).
  apply in_or_app. left. exact Hin.
Qed.

Lemma prefix_spec (sub s : string) :
  prefix sub s = true <-> exists after, s = (sub ++ after)%string.
Proof.
  revert s. induction sub as [|c sub IH]; intros s.
  - split; [intros _; exists s; reflexivity|intros _; destruct s; reflexivity].
  - destruct s as [|d s]; cbn [prefix].
    + split; [discriminate|intros [after H]; discriminate].
    + cbn [append]. destruct (ascii_dec c d) as [->|Hne].
      * rewrite IH. split; intros [after H]; exists after.
        -- rewrite H. reflexivity.
        -- injection H as H. exact H.
      * split; [discriminate|]. intros [after H]. injection H as H _. congruence.
Qed.

(** [strings.Contains] decides occurrence *)
Lemma Contains_spec (s sub : string) : Contains s sub = true <-> occursIn sub s.
Proof.
  unfold occursIn. induction s as [|c s IH]; cbn [Contains].
  - rewrite orb_false_r, prefix_spec. split.
    + intros [after H]. exists "", after. exact H.
    + intros (before & after & H). destruct before; [|discriminate].
      exists after. exact H.
  - rewrite orb_true_iff, prefix_spec, IH. split.
    + intros [[after H]|(before & after & H)].
      * exists "", after. exact H.
      * exists (String c before), after. rewrite H. reflexivity.
    + intros (before & after & H). destruct before as [|d before].
      * left. exists after. exact H.
      * right. injection H as _ H. exists before, after. exact H.
Qed.

Lemma lastByte_app (a b : string) : b <> "" -> lastByte (a ++ b) = lastByte b.
Proof.
  intros Hb. induction a as [|c a IH]; [reflexivity|].
  cbn [append lastByte]. rewrite IH.
  destruct (a ++ b)%string eqn:Hab; [|reflexivity].
  destruct a; cbn in Hab; [contradiction|discriminate].
Qed.

(** a text has suffix [*] exactly when [*] is its last byte *)
Lemma HasSuffix_star (s : string) :
  HasSuffix s "*" = true <-> lastByte s = Some "*"%char.
Proof.
  unfold HasSuffix. cbn [String.length].
  induction s as [|c s IH]; cbn [String.length lastByte].
  - cbn. split; discriminate.
  - destruct s as [|d s].
    + cbn. destruct (Ascii.eqb c "*") eqn:Hc.
      * apply Ascii.eqb_eq in Hc. subst. split; reflexivity.
      * split; [discriminate|]. intros H. injection H as ->. discriminate.
    + rewrite <- IH. cbn [String.length Nat.leb Nat.sub substring andb].
      rewrite Nat.sub_0_r. reflexivity.
Qed.

Lemma TrimRight_decompose (s cutset : string) :
  exists tail, s = (TrimRight s cutset ++ tail)%string /\ within cutset tail = true.
Proof.
  induction s as [|c s (tail & Hs & Htail)]; [exists ""; split; reflexivity|].
  cbn [TrimRight]. destruct (TrimRight s cutset) as [|d t] eqn:Ht.
  - destruct (inCutset c cutset) eqn:Hc.
    + exists (String c s). split; [reflexivity|]. cbn [within]. rewrite Hc.
      cbn in Hs. rewrite Hs. exact Htail.
    + exists tail. split; [cbn; cbn in Hs; congruence|exact Htail].
  - exists tail. split; [cbn; cbn in Hs; congruence|exact Htail].
Qed.

Lemma TrimRight_last (s cutset : string) (c : ascii) :
  lastByte (TrimRight s cutset) = Some c -> inCutset c cutset = false.
Proof.
  induction s as [|d s IH]; [discriminate|].
  cbn [TrimRight]. destruct (TrimRight s cutset) as [|e t] eqn:Ht.
  - destruct (inCutset d cutset) eqn:Hd; [discriminate|].
    cbn. intros H. injection H as <-. exact Hd.
  - intros H. apply IH. exact H.
Qed.

Lemma TrimRight_within (s cutset : string) :
  within cutset s = true -> TrimRight s cutset = "".
Proof.
  induction s as [|c s IH]; [reflexivity|].
  cbn [within TrimRight]. intros H. apply andb_true_iff in H. destruct H as [Hc Hs].
  rewrite (IH Hs), Hc. reflexivity.
Qed.

End TextFacts.

(** ** More on listing *)

Section ListingMore.
Context {R : Runner}.
Import TextFacts.

(** X1: a plain listing gives back the lines the tool printed.  For a
    target that is no mask, once the command validates, an output of one
    or more lines each closed by a line terminator is returned as exactly
    these lines (empty lines in the middle included), and so is an output
    whose last line is not closed, when that line is not empty. *)
Theorem List_plain_lines (fs fsType : string) (recursive : bool) (tr : trace)
  (lines : list string) :
  let c := Command "zfs" (listArgs fs fsType recursive) in
  let tr1 := tr ++ [EvCmdError c None] in
  strings.HasSuffix fs "*" = false -> cmdError tr c = None ->
  lines <> [] -> Forall oneLine lines ->
  (run tr1 c = (unlines lines, None) ->
     result (List fs fsType recursive) tr = (lines, None))
  /\ (last lines "x" <> "" -> run tr1 c = (joinLines lines, None) ->
        result (List fs fsType recursive) tr = (lines, None)).
Proof.
  cbv zeta. intros Hplain Hc Hne Hlines.
  unfold result. rewrite (List_plain fs fsType recursive tr Hplain).
  cbv zeta. unfold bind, ret, CmdError, Run. rewrite Hc. split.
  - intros Hr. rewrite Hr. cbn [fst snd].
    rewrite (Split_unlines lines Hlines), (dropTrailingEmpty_terminated lines Hne).
    reflexivity.
  - intros Hlast Hr. rewrite Hr. cbn [fst snd].
    rewrite (Split_joinLines lines Hne Hlines), (dropTrailingEmpty_open lines Hlast).
    reflexivity.
Qed.

(** entries and errors of a plain listing *)
Lemma List_plain_entries (target kind : string) (rec : bool) (t : trace)
  (o : list string) (e : option error) :
  strings.HasSuffix target "*" = false ->
  result (List target kind rec) t = (o, e) ->
  (e <> None -> o = [])
  /\ (e = None -> Forall oneLine o /\ o <> [])
  /\ (cmdError t (Command "zfs" (listArgs target kind rec)) = None ->
      run (t ++ [EvCmdError (Command "zfs" (listArgs target kind rec)) None])
          (Command "zfs" (listArgs target kind rec)) = ("", None) ->
      o = [""] /\ e = None).
Proof.
  intros Hp. unfold result.
  rewrite (List_plain target kind rec t Hp). cbv zeta.
  unfold bind, ret, CmdError, Run.
  destruct (cmdError t _) as [e1|].
  - cbn. intros H; injection H as <- <-.
    split; [reflexivity|]. split; [discriminate|discriminate].
  - destruct (run _ _) as [stdout [e2|]] eqn:Hr; cbn [fst snd].
    + intros H; injection H as <- <-.
      split; [reflexivity|]. split; [discriminate|]. intros _ H. discriminate.
    + intros H; injection H as <- <-. split; [congruence|]. split.
      * intros _. split.
        -- pose proof (Split_pieces stdout) as Hall.
           rewrite Forall_forall in *. intros x Hx.
           apply Hall. apply dropTrailingEmpty_incl. exact Hx.
        -- apply dropTrailingEmpty_nonempty. apply SplitByte_nonempty.
      * intros _ H. injection H as ->. split; reflexivity.
Qed.

(** X2: what a listing returns.  With an error the list is empty.
    Without one no entry holds a line terminator, and a plain listing
    (no mask) has at least one entry: an output of nothing at all comes
    back as the single entry [""], not as the empty list. *)
Theorem List_entries (fs fsType : string) (recursive : bool) (tr : trace)
  (out : list string) (err : option error) :
  result (List fs fsType recursive) tr = (out, err) ->
  (err <> None -> out = [])
  /\ (err = None -> Forall oneLine out)
  /\ (err = None -> strings.HasSuffix fs "*" = false -> out <> [])
  /\ (strings.HasSuffix fs "*" = false ->
      cmdError tr (Command "zfs" (listArgs fs fsType recursive)) = None ->
      run (tr ++ [EvCmdError (Command "zfs" (listArgs fs fsType recursive)) None])
          (Command "zfs" (listArgs fs fsType recursive)) = ("", None) ->
      out = [""] /\ err = None).
Proof.
  pose proof List_plain_entries as Hplain.
  intros Hres. destruct (strings.HasSuffix fs "*") eqn:Hmask.
  - unfold result in Hres. rewrite (List_masked fs fsType recursive tr Hmask) in Hres.
    destruct (List "" FS false tr) as [[all e] tr1] eqn:Hall.
    assert (Hall' : result (List "" FS false) tr = (all, e))
      by (unfold result; rewrite Hall; reflexivity).
    destruct (Hplain "" FS false tr all e eq_refl Hall') as (_ & Hok & _).
    destruct e as [e|]; cbn in Hres; injection Hres as <- <-.
    + split; [reflexivity|]. repeat split; try discriminate.
    + split; [congruence|]. split; [|split; discriminate].
      intros _. destruct (Hok eq_refl) as [Hlines _].
      rewrite Forall_forall in *. intros x Hx. apply filter_In in Hx. apply Hlines, Hx.
  - destruct (Hplain fs fsType recursive tr out err Hmask Hres) as (Herr & Hok & Hnil).
    split; [exact Herr|]. split; [intros H; apply Hok, H|].
    split; [intros H _; apply Hok, H|]. intros _. exact Hnil.
Qed.

(** X3: the command of a plain listing.  For a target that is no mask,
    [List] works on [zfs list -Ho name -t kind], followed by [-r] when
    the listing is recursive and by the target unless the target is
    empty.  A validation error is returned without running the command;
    otherwise the command is run once, and an execution error is returned
    with an empty list whatever was printed. *)
Theorem List_plain_calls (fs fsType : string) (recursive : bool) (tr : trace) :
  let c := Command "zfs"
             (["list"; "-Ho"; "name"; "-t"; fsType]
                ++ (if recursive then ["-r"] else [])
                ++ (if String.eqb fs "" then [] else [fs])) in
  let tr1 := tr ++ [EvCmdError c None] in
  strings.HasSuffix fs "*" = false ->
  (forall e, cmdError tr c = Some e ->
     List fs fsType recursive tr = (([], Some e), tr ++ [EvCmdError c (Some e)]))
  /\ (forall stdout e, cmdError tr c = None -> run tr1 c = (stdout, Some e) ->
        List fs fsType recursive tr = (([], Some e), tr1 ++ [EvRun c stdout (Some e)]))
  /\ (forall stdout, cmdError tr c = None -> run tr1 c = (stdout, None) ->
        history (List fs fsType recursive) tr = tr1 ++ [EvRun c stdout None]).
Proof.
  cbv zeta. intros Hplain.
  assert (Hargs : listArgs fs fsType recursive
                  = ["list"; "-Ho"; "name"; "-t"; fsType]
                      ++ (if recursive then ["-r"] else [])
                      ++ (if String.eqb fs "" then [] else [fs])).
  { unfold listArgs. destruct recursive, (String.eqb fs ""); reflexivity. }
  rewrite <- Hargs. unfold history.
  rewrite (List_plain fs fsType recursive tr Hplain). cbv zeta.
  unfold bind, ret, CmdError, Run. repeat split.
  - intros e Hc. rewrite Hc. reflexivity.
  - intros stdout e Hc Hr. rewrite Hc, Hr. reflexivity.
  - intros stdout Hc Hr. rewrite Hc, Hr. reflexivity.
Qed.

Lemma Contains_empty (s : string) : strings.Contains s "" = true.
Proof. apply Contains_spec. exists "", s. reflexivity. Qed.

Lemma within_star_suffix (fs : string) :
  fs <> "" -> within "*" fs = true -> strings.HasSuffix fs "*" = true.
Proof.
  intros Hne Hall. apply HasSuffix_star.
  induction fs as [|c fs IH]; [contradiction|].
  cbn [within] in Hall. apply andb_true_iff in Hall. destruct Hall as [Hc Hall].
  destruct fs as [|d fs].
  - cbn in Hc. rewrite orb_false_r in Hc. apply Ascii.eqb_eq in Hc. subst. reflexivity.
  - cbn [lastByte]. apply IH; [discriminate|exact Hall].
Qed.

(** X4: a mask made of [*] only selects everything.  For a non-empty
    pattern of [*] bytes, [List] behaves exactly as the listing of all
    filesystems: same calls, same result, whatever kind and recursion
    flag are passed. *)
Theorem List_star_lists_all (fs fsType : string) (recursive : bool) (tr : trace) :
  fs <> "" -> within "*" fs = true ->
  List fs fsType recursive tr = List "" FS false tr.
Proof.
  intros Hne Hall.
  rewrite (List_masked fs fsType recursive tr (within_star_suffix fs Hne Hall)).
  rewrite (TrimRight_within fs "*" Hall).
  destruct (List "" FS false tr) as [[out err] tr1] eqn:Hlist.
  assert (Hres : result (List "" FS false) tr = (out, err))
    by (unfold result; rewrite Hlist; reflexivity).
  destruct err as [e|].
  - destruct (List_plain_entries "" FS false tr out (Some e) eq_refl Hres) as (Hnil & _).
    rewrite Hnil by discriminate. reflexivity.
  - f_equal. f_equal. clear Hlist Hres.
    induction out as [|x out IH]; [reflexivity|].
    cbn [filter]. rewrite Contains_empty. rewrite IH. reflexivity.
Qed.

End ListingMore.

Section MaskMore.
Context {R : Runner}.
Import TextFacts.

Lemma append_empty_r (s : string) : (s ++ "")%string = s.
Proof. induction s as [|c s IH]; [reflexivity|]. cbn. rewrite IH. reflexivity. Qed.

Lemma stem_has_no_star (fs : string) :
  strings.HasSuffix (strings.TrimRight fs "*") "*" = false.
Proof.
  destruct (strings.HasSuffix (strings.TrimRight fs "*") "*") eqn:H; [|reflexivity].
  apply HasSuffix_star in H. apply TrimRight_last in H. discriminate.
Qed.

(** X5: what a mask selects.  A pattern that ends in [*] is a stem that
    does not end in [*] followed by one or more [*]; when the listing of
    all filesystems succeeds, the entries [List] returns for the pattern
    are exactly the entries of that listing in which the stem occurs. *)
Theorem List_mask_stem (fs fsType : string) (recursive : bool) (tr : trace) :
  strings.HasSuffix fs "*" = true ->
  let stem := strings.TrimRight fs "*" in
  (exists stars, fs = (stem ++ stars)%string /\ within "*" stars = true /\ stars <> "")
  /\ strings.HasSuffix stem "*" = false
  /\ (forall all, result (List "" FS false) tr = (all, None) ->
        exists out,
          result (List fs fsType recursive) tr = (out, None)
          /\ forall entry, In entry out <-> In entry all /\ occursIn stem entry).
Proof.
  cbv zeta. intros Hmask. split; [|split].
  - destruct (TrimRight_decompose fs "*") as (stars & Hfs & Hstars).
    exists stars. split; [exact Hfs|]. split; [exact Hstars|].
    intros ->. rewrite append_empty_r in Hfs.
    pose proof (stem_has_no_star fs) as Hstem. rewrite <- Hfs in Hstem. congruence.
  - apply stem_has_no_star.
  - intros all Hall. unfold result in *.
    rewrite (List_masked fs fsType recursive tr Hmask).
    destruct (List "" FS false tr) as [[all' err] tr1]. cbn in Hall.
    injection Hall as -> ->. eexists. split; [reflexivity|].
    intros entry. rewrite filter_In, Contains_spec. reflexivity.
Qed.

Lemma mask_snapshot_name (fs snap : string) :
  strings.HasSuffix snap "*" = true ->
  strings.HasSuffix (fs ++ "@" ++ snap) "*" = true.
Proof.
  intros H. apply HasSuffix_star. apply HasSuffix_star in H.
  assert (Hne : snap <> "") by (intros ->; discriminate).
  change (fs ++ "@" ++ snap)%string with (fs ++ String "@" snap)%string.
  rewrite lastByte_app by discriminate.
  cbn [lastByte]. destruct snap; [contradiction|exact H].
Qed.

Lemma exist_of_mask (target fsType : string) (tr : trace) :
  strings.HasSuffix target "*" = true ->
  let check :=
    ('(_, err) <- List target fsType false ;;
     match err with
     | Some e => if strings.Contains e DATANOE then ret (false, None) else ret (false, Some e)
     | None => ret (true, None)
     end) in
  history check tr = history (List "" FS false) tr
  /\ (forall all, result (List "" FS false) tr = (all, None) ->
        result check tr = (true, None)).
Proof.
  cbv zeta. intros Hmask. unfold history, result, bind, ret.
  rewrite (List_masked target fsType false tr Hmask).
  destruct (List "" FS false tr) as [[all err] tr1]. cbn [fst snd].
  destruct err as [e|]; cbn [fst snd].
  - split; [destruct (strings.Contains e DATANOE); reflexivity|].
    intros all' H. discriminate.
  - split; reflexivity.
Qed.

(** X6: existence of a mask.  For a dataset name that ends in [*],
    [ExistFs] makes the calls of the listing of all filesystems and
    answers [true] with a nil error whenever that listing succeeds,
    whether or not any entry matches.  [ExistSnap] with a snapshot name
    that ends in [*] does the same: it consults the filesystem listing,
    not a snapshot listing. *)
Theorem Exist_mask_is_true (fs snap : string) (tr : trace) :
  (strings.HasSuffix fs "*" = true ->
     history (ExistFs fs) tr = history (List "" FS false) tr
     /\ (forall all, result (List "" FS false) tr = (all, None) ->
           result (ExistFs fs) tr = (true, None)))
  /\ (strings.HasSuffix snap "*" = true ->
        history (ExistSnap fs snap) tr = history (List "" FS false) tr
        /\ (forall all, result (List "" FS false) tr = (all, None) ->
              result (ExistSnap fs snap) tr = (true, None))).
Proof.
  split.
  - intros Hmask. exact (exist_of_mask fs FS tr Hmask).
  - intros Hmask. exact (exist_of_mask _ SNAP tr (mask_snapshot_name fs snap Hmask)).
Qed.

(** X7: the answers of the existence checks.  Whenever [ExistFs] or
    [ExistSnap] answers [true] its error is nil, and whenever it returns
    an error the answer is [false] and the text of the error does not
    contain "dataset does not exist". *)
Theorem Exist_answers (fs snap : string) (tr : trace) (b : bool) (err : option error) :
  result (ExistFs fs) tr = (b, err) \/ result (ExistSnap fs snap) tr = (b, err) ->
  (b = true -> err = None)
  /\ (forall e, err = Some e -> b = false /\ strings.Contains e DATANOE = false).
Proof.
  assert (Hgen : forall m : M (list string * option error),
             result ('(_, err) <- m ;;
                     match err with
                     | Some e => if strings.Contains e DATANOE
                                 then ret (false, None) else ret (false, Some e)
                     | None => ret (true, None)
                     end) tr = (b, err) ->
             (b = true -> err = None)
             /\ (forall e, err = Some e -> b = false /\ strings.Contains e DATANOE = false)).
  { intros m. unfold result, bind, ret. destruct (m tr) as [[out e0] tr1].
    destruct e0 as [e0|]; [destruct (strings.Contains e0 DATANOE) eqn:Hc|];
      cbn; intros H; injection H as <- <-.
    - split; [discriminate|]. intros e H. discriminate.
    - split; [discriminate|]. intros e H. injection H as <-. split; [reflexivity|exact Hc].
    - split; [reflexivity|]. intros e H. discriminate. }
  intros [H|H]; [exact (Hgen _ H)|exact (Hgen _ H)].
Qed.

(** X8: existence of a plain target, end to end.  For a dataset name
    that is no mask, [ExistFs] answers [true] as soon as
    [zfs list -Ho name -t filesystem <fs>] validates and runs without
    error, whatever it printed; an error of the validation is classified
    by its text like an error of the run: "dataset does not exist" in it
    gives [false] with a nil error, any other text gives [false] with
    that error. *)
Theorem ExistFs_plain (fs : string) (tr : trace) :
  let c := Command "zfs" (listArgs fs FS false) in
  let tr1 := tr ++ [EvCmdError c None] in
  let classify e := if strings.Contains e DATANOE then None else Some e in
  strings.HasSuffix fs "*" = false ->
  (forall e, cmdError tr c = Some e -> result (ExistFs fs) tr = (false, classify e))
  /\ (forall stdout e, cmdError tr c = None -> run tr1 c = (stdout, Some e) ->
        result (ExistFs fs) tr = (false, classify e))
  /\ (forall stdout, cmdError tr c = None -> run tr1 c = (stdout, None) ->
        result (ExistFs fs) tr = (true, None)).
Proof.
  cbv zeta. intros Hplain. unfold result, ExistFs, bind.
  rewrite (List_plain fs FS false tr Hplain). cbv zeta.
  unfold bind, ret, CmdError, Run. repeat split.
  - intros e Hc. rewrite Hc. cbn. destruct (strings.Contains e DATANOE); reflexivity.
  - intros stdout e Hc Hr. rewrite Hc, Hr. cbn.
    destruct (strings.Contains e DATANOE); reflexivity.
  - intros stdout Hc Hr. rewrite Hc, Hr. reflexivity.
Qed.

(** X9: the snapshots of a dataset.  [ListFsSnap] works on
    [zfs list -Ho name -d1 -t snapshot <fs>] with the target always
    passed, empty or ending in [*] as it may be.  An error of validation
    or execution comes back with an empty list; an output of one or more
    terminated lines comes back as exactly these lines; an output of
    nothing comes back as the single entry [""]. *)
Theorem ListFsSnap_lines (fs : string) (tr : trace) :
  let c := Command "zfs" ["list"; "-Ho"; "name"; "-d1"; "-t"; "snapshot"; fs] in
  let tr1 := tr ++ [EvCmdError c None] in
  (forall e, cmdError tr c = Some e ->
     ListFsSnap fs tr = (([], Some e), tr ++ [EvCmdError c (Some e)]))
  /\ (forall stdout e, cmdError tr c = None -> run tr1 c = (stdout, Some e) ->
        ListFsSnap fs tr = (([], Some e), tr1 ++ [EvRun c stdout (Some e)]))
  /\ (forall lines, cmdError tr c = None -> lines <> [] -> Forall oneLine lines ->
        run tr1 c = (unlines lines, None) ->
        ListFsSnap fs tr = ((lines, None), tr1 ++ [EvRun c (unlines lines) None]))
  /\ (cmdError tr c = None -> run tr1 c = ("", None) ->
        ListFsSnap fs tr = (([""], None), tr1 ++ [EvRun c "" None])).
Proof.
  cbv zeta. unfold ListFsSnap, bind, ret, CmdError, Run. repeat split.
  - intros e Hc. rewrite Hc. reflexivity.
  - intros stdout e Hc Hr. rewrite Hc, Hr. reflexivity.
  - intros lines Hc Hne Hlines Hr. rewrite Hc, Hr. cbn [fst snd].
    rewrite (Split_unlines lines Hlines), (dropTrailingEmpty_terminated lines Hne).
    reflexivity.
  - intros Hc Hr. rewrite Hc, Hr. reflexivity.
Qed.

End MaskMore.

(** ** More on the most recent snapshot *)

Section RecentMore.
Context {R : Runner}.
Import TextFacts.

(** X10: without a property key nothing is filtered.  Once the listing
    succeeded, [RecentSnap snap ""] returns the first line of the output,
    that is the text before the first line terminator, and makes no call
    beyond the listing; an output without terminator is returned whole. *)
Theorem RecentSnap_unfiltered (snap stdout : string) (tr : trace) :
  let c := Command "zfs"
             ["list"; "-Hro"; "name"; "-t"; "snapshot"; "-S"; "creation"; snap] in
  let tr1 := tr ++ [EvCmdError c None] in
  cmdError tr c = None -> run tr1 c = (stdout, None) ->
  history (RecentSnap snap "") tr = tr1 ++ [EvRun c stdout None]
  /\ (forall first rest, oneLine first ->
        stdout = (first ++ String strings.newline rest)%string ->
        result (RecentSnap snap "") tr = (first, None))
  /\ (oneLine stdout -> result (RecentSnap snap "") tr = (stdout, None)).
Proof.
  cbv zeta. intros Hc Hr. unfold history, result.
  rewrite (RecentSnap_listing snap "" stdout tr Hc Hr).
  assert (Hloop : forall out t, recentLoop out "" t = ((hd "" out, None), t)).
  { intros out t. destruct out; reflexivity. }
  rewrite Hloop. cbn [fst snd]. split; [reflexivity|]. split.
  - intros first rest Hfirst ->. rewrite (Split_line first rest Hfirst). reflexivity.
  - intros Hline. rewrite (Split_oneLine stdout Hline). reflexivity.
Qed.

Lemma recentLoop_nil_error (out : list string) (property : string) (tr : trace) :
  snd (fst (recentLoop out property tr)) = None.
Proof.
  revert tr. induction out as [|p out IH]; intros tr; [reflexivity|].
  cbn [recentLoop]. destruct (negb (String.eqb property "")); [|reflexivity].
  unfold bind. destruct (Property p property tr) as [[value err] tr'].
  destruct err; [reflexivity|].
  destruct (String.eqb value "true"); [reflexivity|apply IH].
Qed.

(** X11: the only errors [RecentSnap] returns are those of its listing.
    A non-nil error comes with the empty string and is the error of the
    validation or of the run of the listing command; an error of a
    property read is never returned. *)
Theorem RecentSnap_error_is_listing_error (snap property : string) (tr : trace)
  (e : error) :
  let c := Command "zfs"
             ["list"; "-Hro"; "name"; "-t"; "snapshot"; "-S"; "creation"; snap] in
  let tr1 := tr ++ [EvCmdError c None] in
  snd (result (RecentSnap snap property) tr) = Some e ->
  fst (result (RecentSnap snap property) tr) = ""
  /\ (cmdError tr c = Some e \/ (cmdError tr c = None /\ snd (run tr1 c) = Some e)).
Proof.
  cbv zeta. unfold result, RecentSnap, bind, ret, CmdError, Run.
  destruct (cmdError tr _) as [e1|] eqn:Hc; cbn -[recentLoop].
  - intros H. injection H as ->. split; [reflexivity|]. left. reflexivity.
  - destruct (run _ _) as [stdout [e2|]] eqn:Hr; cbn -[recentLoop].
    + intros H. injection H as ->. split; [reflexivity|]. right. split; reflexivity.
    + rewrite recentLoop_nil_error. discriminate.
Qed.

Lemma unmarked_cons_intro (property p value : string) (pre : list string) (tr : trace) :
  result (Property p property) tr = (value, None) -> value <> "true" ->
  unmarked property (history (Property p property) tr) pre ->
  unmarked property tr (p :: pre).
Proof.
  intros Hread Hvalue Hpre pre1 q pre2 Heq.
  destruct pre1 as [|p' pre1]; cbn [app] in Heq; injection Heq as <- Heq.
  - exists value. split; assumption.
  - exact (Hpre pre1 q pre2 Heq).
Qed.

Lemma recentLoop_sound (property s : string) (out : list string) (tr : trace) :
  property <> "" -> s <> "" ->
  fst (recentLoop out property tr) = (s, None) ->
  exists pre post,
    out = pre ++ s :: post
    /\ unmarked property tr pre
    /\ result (Property s property) (afterReads property pre tr) = ("true", None).
Proof.
  intros Hkey Hs. revert tr. induction out as [|p out IH]; intros tr.
  - cbn. intros H. injection H as H. congruence.
  - destruct (result (Property p property) tr) as [value err] eqn:Hread.
    destruct err as [e|].
    + rewrite (recentLoop_abort property p value e out tr Hkey Hread).
      cbn. intros H. injection H as H. congruence.
    + destruct (String.eqb value "true") eqn:Hvalue.
      * apply String.eqb_eq in Hvalue. subst value.
        rewrite (recentLoop_hit property p out tr Hkey Hread).
        cbn. intros H. injection H as <-.
        exists [], out. split; [reflexivity|]. split; [|exact Hread].
        intros pre1 q pre2 Heq. destruct pre1; discriminate.
      * apply String.eqb_neq in Hvalue.
        rewrite (recentLoop_pass property p value out tr Hkey Hread Hvalue).
        intros H. destruct (IH _ H) as (pre & post & Hout & Hpre & Hhit).
        exists (p :: pre), post. split; [rewrite Hout; reflexivity|].
        split; [|exact Hhit].
        exact (unmarked_cons_intro property p value pre tr Hread Hvalue Hpre).
Qed.

(** X12: a name [RecentSnap] returns was read as marked.  With a
    non-empty property key and a listing that succeeded, a non-empty
    result is a line of the listing whose property read gave the literal
    "true", and every line before it was read without error as something
    else. *)
Theorem RecentSnap_sound (snap property stdout s : string) (tr : trace) :
  let c := Command "zfs"
             ["list"; "-Hro"; "name"; "-t"; "snapshot"; "-S"; "creation"; snap] in
  let tr1 := tr ++ [EvCmdError c None] in
  let tr2 := tr1 ++ [EvRun c stdout None] in
  property <> "" -> cmdError tr c = None -> run tr1 c = (stdout, None) ->
  result (RecentSnap snap property) tr = (s, None) -> s <> "" ->
  exists pre post,
    strings.Split stdout = pre ++ s :: post
    /\ unmarked property tr2 pre
    /\ result (Property s property) (afterReads property pre tr2) = ("true", None).
Proof.
  cbv zeta. intros Hkey Hc Hr Hres Hs. unfold result in Hres.
  rewrite (RecentSnap_listing snap property stdout tr Hc Hr) in Hres.
  exact (recentLoop_sound property s _ _ Hkey Hs Hres).
Qed.

(** X13: the line after the last terminator is a candidate too.  The
    listing of [RecentSnap] is split without dropping the empty piece
    that follows the final line terminator: when every listed line reads
    as something other than "true", the scan goes on to read the property
    of the empty name, these are its last calls, and the result is the
    empty string with a nil error whatever that read gives. *)
Theorem RecentSnap_reads_empty_name (snap property : string) (lines : list string)
  (tr : trace) :
  let c := Command "zfs"
             ["list"; "-Hro"; "name"; "-t"; "snapshot"; "-S"; "creation"; snap] in
  let tr1 := tr ++ [EvCmdError c None] in
  let tr2 := tr1 ++ [EvRun c (unlines lines) None] in
  property <> "" -> cmdError tr c = None -> Forall oneLine lines ->
  run tr1 c = (unlines lines, None) -> unmarked property tr2 lines ->
  result (RecentSnap snap property) tr = ("", None)
  /\ history (RecentSnap snap property) tr
     = history (Property "" property) (afterReads property lines tr2).
Proof.
  cbv zeta. intros Hkey Hc Hlines Hr Hall. unfold result at 1, history at 1.
  rewrite (RecentSnap_listing snap property _ tr Hc Hr).
  rewrite (Split_unlines lines Hlines).
  rewrite (recentLoop_prefix property lines [""] _ Hkey Hall).
  cbn [recentLoop]. apply String.eqb_neq in Hkey. rewrite Hkey. cbn [negb].
  unfold bind, ret, history.
  destruct (Property "" property _) as [[value err] tr3].
  destruct err; [split; reflexivity|].
  destruct (String.eqb value "true"); split; reflexivity.
Qed.

End RecentMore.

(** ** More on replication and on the one-command operations *)

Section CallsMore.
Context {R : Runner}.


(** X15: the calls of [RecvSnap].  A validation error is returned with a
    nil worker and nothing is started.  The worker is nil exactly when
    validation failed, a returned error is always the validation error,
    and no call is ever made beyond validation and start of
    [zfs recv fs@snap]. *)
Theorem RecvSnap_calls (fs snap : string) (tr : trace) :
  let c := Command "zfs" ["recv"; (fs ++ "@" ++ snap)%string] in
  (forall e, cmdError tr c = Some e ->
     RecvSnap fs snap tr = ((None, Some e), tr ++ [EvCmdError c (Some e)]))
  /\ (fst (result (RecvSnap fs snap) tr) = None <-> cmdError tr c <> None)
  /\ (forall e, snd (result (RecvSnap fs snap) tr) = Some e -> cmdError tr c = Some e)
  /\ (exists evs, history (RecvSnap fs snap) tr = tr ++ evs
        /\ Forall (fun ev => eventCmd ev = Some c
                             /\ (eventKind ev = KCmdError \/ eventKind ev = KStart)) evs).
Proof.
  cbv zeta. unfold result, history, RecvSnap, bind, ret, CmdError, Start.
  destruct (cmdError tr _) as [e1|]; cbn [fst snd].
  - split; [intros e H; injection H as <-; reflexivity|].
    split; [split; [discriminate|reflexivity]|].
    split; [intros e H; exact H|].
    eexists. split; [reflexivity|].
    constructor; [split; [reflexivity|left; reflexivity]|constructor].
  - split; [discriminate|].
    split; [split; [discriminate|intros H; contradiction]|].
    split; [discriminate|].
    eexists. split; [rewrite <- app_assoc; reflexivity|].
    constructor; [split; [reflexivity|left; reflexivity]|].
    constructor; [split; [reflexivity|right; reflexivity]|constructor].
Qed.

(** X16: a write that fails is not read back.  When the validation or
    the run of [zfs set property=value fs] fails, [SetProperty] returns
    that error unchanged and makes no further call: the property is not
    read. *)
Theorem SetProperty_write_failure (fs property value : string) (tr : trace) :
  let c := Command "zfs" ["set"; (property ++ "=" ++ value)%string; fs] in
  let tr1 := tr ++ [EvCmdError c None] in
  (forall e, cmdError tr c = Some e ->
     SetProperty fs property value tr = (Some e, tr ++ [EvCmdError c (Some e)]))
  /\ (forall stdout e, cmdError tr c = None -> run tr1 c = (stdout, Some e) ->
        SetProperty fs property value tr = (Some e, tr1 ++ [EvRun c stdout (Some e)])).
Proof.
  cbv zeta. unfold SetProperty, bind, ret, CmdError, Run. split.
  - intros e Hc. rewrite Hc. reflexivity.
  - intros stdout e Hc Hr. rewrite Hc. cbn -[Property append]. rewrite Hr. reflexivity.
Qed.

(** X17: the operations that change the pool.  [CreateSnap], [CreateFs],
    [Destroy] and [RenameSnap] each validate one command
    ([snapshot fs@snap], [create fs], [destroy fs],
    [rename fs@old fs@new]); a validation error is returned without the
    command being run, and otherwise the command is run once and its
    error, nil or not, is what is returned. *)
Theorem pool_changes_run_one_command (fs snap snapOld snapNew : string) (tr : trace) :
  oneCommand (CreateSnap fs snap)
    (Command "zfs" ["snapshot"; (fs ++ "@" ++ snap)%string]) tr
  /\ oneCommand (CreateFs fs) (Command "zfs" ["create"; fs]) tr
  /\ oneCommand (Destroy fs) (Command "zfs" ["destroy"; fs]) tr
  /\ oneCommand (RenameSnap fs snapOld snapNew)
       (Command "zfs" ["rename"; (fs ++ "@" ++ snapOld)%string;
                       (fs ++ "@" ++ snapNew)%string]) tr.
Proof.
  unfold oneCommand, CreateSnap, CreateFs, Destroy, RenameSnap, bind, ret, CmdError, Run.
  repeat split.
  all: try (intros e Hc; rewrite Hc; reflexivity).
  all: intros stdout err Hc Hr; rewrite Hc; cbn -[append]; rewrite Hr; reflexivity.
Qed.

Lemma send_is_not_recv (fs snapOld snapNew target : string) :
  Command "zfs" (sendArgs fs snapOld snapNew) <> Command "zfs" ["recv"; target].
Proof.
  unfold sendArgs. destruct (String.eqb snapNew ""); discriminate.
Qed.

(** X18: a receive worker handed on to [SendSnap].  When the worker
    [RecvSnap] returns is passed to [SendSnap] as the consumer, the
    consumer has been sent its start call, by [RecvSnap], before
    [SendSnap] makes any call; [SendSnap] never starts it again, and the
    only call it makes on it is the request for its input pipe. *)
Theorem RecvSnap_then_SendSnap (rfs rsnap fs snapOld snapNew : string) (tr : trace) :
  let cw := Command "zfs" ["recv"; (rfs ++ "@" ++ rsnap)%string] in
  let tr1 := tr ++ [EvCmdError cw None] in
  cmdError tr cw = None ->
  fst (result (RecvSnap rfs rsnap) tr) = Some cw
  /\ exists evs,
       history (SendSnap fs snapOld snapNew cw) (history (RecvSnap rfs rsnap) tr)
       = (tr ++ [EvCmdError cw None; EvStart cw (start tr1 cw)]) ++ evs
       /\ (forall ev, In ev evs -> eventCmd ev = Some cw -> eventKind ev = KStdinPipe).
Proof.
  cbv zeta. intros Hc.
  unfold result at 1, history at 2, RecvSnap, bind, ret, CmdError, Start.
  rewrite Hc. cbn [fst snd]. split; [reflexivity|].
  rewrite <- app_assoc. cbn [app].
  set (cw := Command "zfs" ["recv"; (rfs ++ "@" ++ rsnap)%string]).
  set (tr' := tr ++ [EvCmdError cw None; EvStart cw _]).
  unfold history. rewrite SendSnap_cases.
  pose proof (send_is_not_recv fs snapOld snapNew (rfs ++ "@" ++ rsnap)%string) as Hne.
  fold cw in Hne.
  set (sw := Command "zfs" (sendArgs fs snapOld snapNew)) in *.
  assert (Hsw : forall ev, eventCmd ev = Some sw -> eventCmd ev = Some cw ->
                           eventKind ev = KStdinPipe).
  { intros ev H1 H2. exfalso. apply Hne. congruence. }
  destruct (cmdError tr' sw) as [e1|].
  { eexists. split; [reflexivity|]. intros ev Hin. cbn [In] in Hin.
    destruct Hin as [<-|[]]. apply Hsw. reflexivity. }
  destruct (stdoutPipe _ sw) as [src|e2].
  2:{ eexists. split; [cbn [snd]; rewrite <- app_assoc; reflexivity|].
      intros ev Hin. cbn [In app] in Hin.
      destruct Hin as [<-|[<-|[]]]; apply Hsw; reflexivity. }
  destruct (stdinPipe _ cw) as [dst|e3].
  2:{ eexists. split; [cbn [snd]; rewrite <- !app_assoc; reflexivity|].
      intros ev Hin. cbn [In app] in Hin.
      destruct Hin as [<-|[<-|[<-|[]]]]; try (apply Hsw; reflexivity).
      intros _. reflexivity. }
  destruct (start _ sw) as [e4|].
  { eexists. split; [cbn [snd]; rewrite <- !app_assoc; reflexivity|].
    intros ev Hin. cbn [In app] in Hin.
    destruct Hin as [<-|[<-|[<-|[<-|[]]]]]; try (apply Hsw; reflexivity).
    intros _. reflexivity. }
  destruct (io.copyBuffer dst src 0 []) as [[written err] writes].
  eexists. split; [cbn [snd]; rewrite <- !app_assoc; reflexivity|].
  intros ev Hin. cbn [In app] in Hin.
  destruct Hin as [<-|[<-|[<-|[<-|[<-|[]]]]]]; try (apply Hsw; reflexivity).
  - intros _. reflexivity.
  - cbn. discriminate.
Qed.

End CallsMore.

(** ** The additional theorems on the sample pool *)

Lemma List_plain_lines_witness :
  strings.HasSuffix "" "*" = false
  /\ Forall oneLine ["tank"; "tank/a"; "tank/ab"; "pool/x"]
  /\ result (@List poolRunner "" FS false) [] = (["tank"; "tank/a"; "tank/ab"; "pool/x"], None).
Proof.
  split; [reflexivity|]. split; [repeat constructor|].
  apply (proj1 (@List_plain_lines poolRunner "" FS false []
                  ["tank"; "tank/a"; "tank/ab"; "pool/x"]
                  eq_refl eq_refl ltac:(discriminate) ltac:(repeat constructor))).
  reflexivity.
Defined.

Lemma List_entries_witness :
  result (@List poolRunner "tank/a*" SNAP true) [] = (["tank/a"; "tank/ab"], None)
  /\ Forall oneLine ["tank/a"; "tank/ab"].
Proof.
  split; [reflexivity|].
  apply (proj1 (proj2 (@List_entries poolRunner "tank/a*" SNAP true []
                         ["tank/a"; "tank/ab"] None eq_refl))).
  reflexivity.
Defined.

Lemma List_plain_calls_witness :
  let c := Command "zfs" ["list"; "-Ho"; "name"; "-t"; "snapshot"; "-r"; "tank"] in
  strings.HasSuffix "tank" "*" = false
  /\ @List poolRunner "tank" SNAP true []
     = (([], Some "cannot open: dataset does not exist"),
        [EvCmdError c None; EvRun c "" (Some "cannot open: dataset does not exist")]).
Proof.
  cbv zeta. split; [reflexivity|].
  apply (proj1 (proj2 (@List_plain_calls poolRunner "tank" SNAP true [] eq_refl))
           "" "cannot open: dataset does not exist"); reflexivity.
Defined.

Lemma List_star_lists_all_witness :
  within "*" "**" = true
  /\ @List poolRunner "**" SNAP true [] = @List poolRunner "" FS false [].
Proof.
  split; [reflexivity|].
  apply (@List_star_lists_all poolRunner "**" SNAP true []); [discriminate|reflexivity].
Defined.

Lemma List_mask_stem_witness :
  strings.HasSuffix "tank/a**" "*" = true
  /\ strings.HasSuffix (strings.TrimRight "tank/a**" "*") "*" = false.
Proof.
  split; [reflexivity|].
  exact (proj1 (proj2 (@List_mask_stem poolRunner "tank/a**" FS false [] eq_refl))).
Defined.

Lemma Exist_answers_witness :
  result (@ExistFs poolRunner "tank/locked") []
  = (false, Some "cannot open 'tank/locked': permission denied")
  /\ strings.Contains "cannot open 'tank/locked': permission denied" DATANOE = false.
Proof.
  split; [reflexivity|].
  apply (proj2 (@Exist_answers poolRunner "tank/locked" "old" [] false
                  (Some "cannot open 'tank/locked': permission denied")
                  (or_introl eq_refl)) _ eq_refl).
Defined.

Lemma ExistFs_plain_witness :
  strings.HasSuffix "tank/none" "*" = false
  /\ result (@ExistFs poolRunner "tank/none") [] = (false, None).
Proof.
  split; [reflexivity|].
  apply (proj1 (proj2 (@ExistFs_plain poolRunner "tank/none" [] eq_refl))
           "" "cannot open: dataset does not exist"); reflexivity.
Defined.

Lemma RecentSnap_unfiltered_witness :
  let c := Command "zfs"
             ["list"; "-Hro"; "name"; "-t"; "snapshot"; "-S"; "creation"; "tank"] in
  @cmdError poolRunner [] c = None
  /\ result (@RecentSnap poolRunner "tank" "") [] = ("tank@new", None).
Proof.
  cbv zeta. split; [reflexivity|].
  apply (proj1 (proj2 (@RecentSnap_unfiltered poolRunner "tank" _ [] eq_refl eq_refl))
           "tank@new" "tank@old"); reflexivity.
Defined.

Lemma RecentSnap_error_is_listing_error_witness :
  let c := Command "zfs"
             ["list"; "-Hro"; "name"; "-t"; "snapshot"; "-S"; "creation"; "none"] in
  snd (result (@RecentSnap poolRunner "none" "keep") [])
  = Some "cannot open: dataset does not exist"
  /\ fst (result (@RecentSnap poolRunner "none" "keep") []) = "".
Proof.
  cbv zeta. split; [reflexivity|].
  exact (proj1 (@RecentSnap_error_is_listing_error poolRunner "none" "keep" []
                  "cannot open: dataset does not exist" eq_refl)).
Defined.

Lemma RecentSnap_sound_witness :
  result (@RecentSnap poolRunner "tank" "keep") [] = ("tank@old", None)
  /\ exists pre post,
       strings.Split ("tank@new" ++ nl ++ "tank@old") = pre ++ "tank@old" :: post
       /\ result (@Property poolRunner "tank@old" "keep")
            (@afterReads poolRunner "keep" pre
               [EvCmdError (Command "zfs" ["list"; "-Hro"; "name"; "-t"; "snapshot";
                                           "-S"; "creation"; "tank"]) None;
                EvRun (Command "zfs" ["list"; "-Hro"; "name"; "-t"; "snapshot";
                                      "-S"; "creation"; "tank"])
                      ("tank@new" ++ nl ++ "tank@old") None])
          = ("true", None).
Proof.
  split; [reflexivity|].
  destruct (@RecentSnap_sound poolRunner "tank" "keep" ("tank@new" ++ nl ++ "tank@old")
              "tank@old" [] ltac:(discriminate) eq_refl eq_refl eq_refl
              ltac:(discriminate)) as (pre & post & Hsplit & _ & Hread).
  exists pre, post. split; [exact Hsplit|exact Hread].
Defined.

Lemma RecentSnap_reads_empty_name_witness :
  Forall oneLine ["tank/a@s2"; "tank/a@s1"]
  /\ result (@RecentSnap terminatedRunner "tank/a" "keep") [] = ("", None).
Proof.
  split; [repeat constructor|].
  apply (proj1 (@RecentSnap_reads_empty_name terminatedRunner "tank/a" "keep"
                  ["tank/a@s2"; "tank/a@s1"] []
                  ltac:(discriminate) eq_refl ltac:(repeat constructor) eq_refl
                  ltac:(intros pre1 p pre2 Hpre;
                        destruct pre1 as [|q1 [|q2 pre1]];
                        [ injection Hpre as <- _; exists "false";
                          split; [reflexivity|discriminate]
                        | injection Hpre as _ <- _; exists "-";
                          split; [reflexivity|discriminate]
                        | destruct pre1; discriminate ]))).
Defined.

Lemma RecvSnap_then_SendSnap_witness :
  let cw := Command "zfs" ["recv"; "backup@old"] in
  @cmdError stuckRunner [] cw = None
  /\ fst (result (@RecvSnap stuckRunner "backup" "old") []) = Some cw.
Proof.
  cbv zeta. split; [reflexivity|].
  exact (proj1 (@RecvSnap_then_SendSnap stuckRunner "backup" "old" "tank" "old" "" []
                  eq_refl)).
Defined.

(** with every line terminated the scan ends on a read of the empty name *)
Example RecentSnap_last_read :
  last (history (@RecentSnap terminatedRunner "tank/a" "keep") []) (EvCopy [] 0 None)
  = EvRun (Command "zfs" ["get"; "-Ho"; "value"; "keep"; ""]) ""
          (Some "cannot open: dataset does not exist").
Proof. vm_compute. reflexivity. Qed.
